(** * Verification of the openneuro-py download engine

    Shallow embedding of [openneuro/download.py]: the include/exclude
    selection loop of [download], the directory walker
    [_iterate_filenames], the per-file decision of [_download_file] and
    [_retrieve_and_write_to_disk], the semaphore discipline of
    [_download_file]/[_retry_download], the local revision probe
    [_get_local_tag], and the revision check of [download]. *)

From Stdlib Require Import String Ascii List Bool Arith NArith Lia.
From Stdlib Require Import Numbers.DecimalString.
Set Warnings "-register-all".
Import ListNotations.
Open Scope string_scope.
Open Scope list_scope.

(* ================================================================= *)
(** ** Python [fnmatch.fnmatch] (POSIX, [os.path.normcase] is the identity)

    [fnmatch.translate] turns the pattern into a regular expression:
    [*] becomes [.*] (runs of [*] are collapsed), [?] becomes [.],
    a bracket expression becomes a character class, every other
    character is literal. The expression is matched against the whole
    name with [re.DOTALL], so [*] and [?] also match [/]. *)
Module Glob.

(** An atom of the character class text produced by [translate]:
    a character, and whether it is an unescaped [-] (a range
    separator); escaped characters ([\\], [\-]) are plain. *)
Definition atom := (ascii * bool)%type.

Inductive citem := CSingle (c : ascii) | CRange (lo hi : ascii).

Inductive tok :=
| TStar
| TAny
| TLit (c : ascii)
| TClass (negated : bool) (items : list citem)
| TNever.

Definition dash : ascii := "-"%char.
Definition bang : ascii := "!"%char.
Definition rbracket : ascii := "]"%char.

(** The regular-expression parser reading a class body: [x-y] is a
    range, anything else one character. *)
Fixpoint parse_class (l : list atom) : list citem :=
  match l with
  | a :: (_, true) :: b :: rest => CRange (fst a) (fst b) :: parse_class rest
  | a :: rest => CSingle (fst a) :: parse_class rest
  | [] => []
  end.

Definition in_citem (c : ascii) (it : citem) : bool :=
  match it with
  | CSingle d => Ascii.eqb c d
  | CRange lo hi => Nat.leb (nat_of_ascii lo) (nat_of_ascii c) && Nat.leb (nat_of_ascii c) (nat_of_ascii hi)
  end.

(** [k = pat.find('-', k, j)] on the bracket body [stuff]. *)
Fixpoint find_dash (k : nat) (s : list ascii) : option nat :=
  match s with
  | [] => None
  | c :: s' =>
      match k with
      | S k' => option_map S (find_dash k' s')
      | O => if Ascii.eqb c dash then Some 0 else option_map S (find_dash 0 s')
      end
  end.

Definition slice (a b : nat) (s : list ascii) : list ascii := firstn (b - a) (skipn a s).

(** The chunk loop of [translate]: [chunks.append(pat[i:k]); i = k+1;
    k = k+3], on a body of length [j]; [fuel] bounds the iterations. *)
Fixpoint chunk_loop (fuel : nat) (stuff : list ascii) (i k : nat)
  : list (list ascii) * nat :=
  match fuel with
  | O => ([], i)
  | S fuel' =>
      match find_dash k stuff with
      | None => ([], i)
      | Some p =>
          let '(cs, i') := chunk_loop fuel' stuff (p + 1) (p + 3) in
          (slice i p stuff :: cs, i')
      end
  end.

Definition last_char (l : list ascii) : ascii := last l "000"%char.
Definition first_char (l : list ascii) : ascii := hd "000"%char l.

(** [for k in range(len(chunks)-1, 0, -1): if chunks[k-1][-1] >
    chunks[k][0]: chunks[k-1] = chunks[k-1][:-1] + chunks[k][1:];
    del chunks[k]]; the loop runs from the right end, written here as
    a right fold. *)
Fixpoint merge_ranges (cs : list (list ascii)) : list (list ascii) :=
  match cs with
  | [] => []
  | [c] => [c]
  | c :: cs' =>
      match merge_ranges cs' with
      | d :: ds =>
          if Nat.ltb (nat_of_ascii (first_char d)) (nat_of_ascii (last_char c))
          then (removelast c ++ tl d) :: ds
          else c :: d :: ds
      | [] => [c]
      end
  end.

Definition lit_atoms (l : list ascii) : list atom := map (fun c => (c, false)) l.

Fixpoint join_chunks (cs : list (list ascii)) : list atom :=
  match cs with
  | [] => []
  | [c] => lit_atoms c
  | c :: cs' => lit_atoms c ++ (dash, true) :: join_chunks cs'
  end.

(** The class text for a bracket body [stuff = pat[i:j]]. *)
Definition class_atoms (stuff : list ascii) : list atom :=
  if negb (existsb (Ascii.eqb dash) stuff) then lit_atoms stuff
  else
    let k0 := match stuff with c :: _ => if Ascii.eqb c bang then 2 else 1 | [] => 1 end in
    let '(cs, i) := chunk_loop (length stuff) stuff 0 k0 in
    let chunk := skipn i stuff in
    let chunks :=
      match chunk with
      | [] => removelast cs ++ [last cs [] ++ [dash]]
      | _ => cs ++ [chunk]
      end in
    join_chunks (merge_ranges chunks).

(** [if not stuff: '(?!)' elif stuff == '!': '.' else '[' ... ']'] with
    a leading [!] turned into [^]. *)
Definition class_tok (stuff : list ascii) : tok :=
  match class_atoms stuff with
  | [] => TNever
  | [(c, false)] => if Ascii.eqb c bang then TAny else TClass false (parse_class [(c, false)])
  | (c, false) :: rest =>
      if Ascii.eqb c bang then TClass true (parse_class rest)
      else TClass false (parse_class ((c, false) :: rest))
  | atoms => TClass false (parse_class atoms)
  end.

(** The end [j] of a bracket expression whose body starts at [rest]:
    skip a leading [!], then a leading [\]], then look for [\]]. *)
Fixpoint find_rbracket (s : list ascii) : option nat :=
  match s with
  | [] => None
  | c :: s' => if Ascii.eqb c rbracket then Some 0 else option_map S (find_rbracket s')
  end.

Definition bracket_end (rest : list ascii) : option nat :=
  let j0 := match rest with c :: _ => if Ascii.eqb c bang then 1 else 0 | [] => 0 end in
  let j1 := match nth_error rest j0 with
            | Some c => if Ascii.eqb c rbracket then S j0 else j0
            | None => j0 end in
  option_map (Nat.add j1) (find_rbracket (skipn j1 rest)).

Definition add_star (res : list tok) : list tok :=
  match res with
  | TStar :: _ => res
  | _ => TStar :: res
  end.

(** [translate], accumulating the tokens in reverse. *)
Fixpoint translate_aux (fuel : nat) (pat : list ascii) (res : list tok) : list tok :=
  match fuel with
  | O => rev res
  | S fuel' =>
      match pat with
      | [] => rev res
      | c :: rest =>
          if Ascii.eqb c "*"%char then translate_aux fuel' rest (add_star res)
          else if Ascii.eqb c "?"%char then translate_aux fuel' rest (TAny :: res)
          else if Ascii.eqb c "["%char then
            match bracket_end rest with
            | None => translate_aux fuel' rest (TLit c :: res)
            | Some j => translate_aux fuel' (skipn (S j) rest) (class_tok (firstn j rest) :: res)
            end
          else translate_aux fuel' rest (TLit c :: res)
      end
  end.

Definition translate (pat : list ascii) : list tok := translate_aux (length pat) pat [].

(** [re.match(translate(pat), name)]: the whole name must match. *)
Fixpoint tmatch (ts : list tok) (s : list ascii) : bool :=
  match ts with
  | [] => match s with [] => true | _ => false end
  | TStar :: ts' =>
      (fix try (s : list ascii) : bool :=
         tmatch ts' s || match s with [] => false | _ :: s' => try s' end) s
  | TAny :: ts' => match s with [] => false | _ :: s' => tmatch ts' s' end
  | TLit d :: ts' => match s with [] => false | c :: s' => Ascii.eqb c d && tmatch ts' s' end
  | TClass neg items :: ts' =>
      match s with
      | [] => false
      | c :: s' => xorb neg (existsb (in_citem c) items) && tmatch ts' s'
      end
  | TNever :: _ => false
  end.

Definition fnmatch (name pat : string) : bool :=
  tmatch (translate (list_ascii_of_string pat)) (list_ascii_of_string name).

(** A pattern with none of the characters [translate] treats specially. *)
Definition is_literal (pat : list ascii) : bool :=
  forallb (fun c => negb (Ascii.eqb c "*"%char || Ascii.eqb c "?"%char || Ascii.eqb c "["%char)) pat.

End Glob.

(* ================================================================= *)
(** ** File entries, as the metadata query returns them

    [{"filename", "urls", "size", "directory", "id"}]. *)
Record entity := mk_entity {
  filename : string;
  directory : bool;
  ent_id : string;
  size : nat;
  urls : list string
}.

(* ================================================================= *)
(** ** The selection loop of [download] (lines 676-735) *)
Module Select.

(** [filename in ('dataset_description.json', ..., 'CHANGES')] *)
Definition essential_files : list string :=
  ["dataset_description.json"; "participants.tsv"; "participants.json"; "README"; "CHANGES"].

Definition is_essential (f : string) : bool := existsb (String.eqb f) essential_files.

(** [filename.startswith(i) or fnmatch.fnmatch(filename, i)] *)
Definition pattern_matches (fname pat : string) : bool :=
  String.prefix pat fname || Glob.fnmatch fname pat.

(** [l.index(x)], defined where the code calls it (the value is in
    the list); [None] when it is not. *)
Fixpoint py_index {A} (eqb : A -> A -> bool) (x : A) (l : list A) : option nat :=
  match l with
  | [] => None
  | y :: l' => if eqb x y then Some 0 else option_map S (py_index eqb x l')
  end.

(** [counts[i] += 1] *)
Fixpoint incr_at (i : nat) (counts : list nat) : list nat :=
  match counts, i with
  | [], _ => []
  | c :: cs, O => S c :: cs
  | c :: cs, S i' => c :: incr_at i' cs
  end.

Record sel_state := mk_sel {
  sel_files : list entity;       (** [files] *)
  sel_counts : list nat;         (** [include_counts] *)
  sel_filenames : list string    (** [filenames] *)
}.

(** One iteration of the [for file in ...] loop. *)
Definition select_step (include exclude : list string) (st : sel_state) (file : entity)
  : sel_state :=
  let fname := filename file in
  let filenames := sel_filenames st ++ [fname] in
  if is_essential fname then
    let counts :=
      if existsb (String.eqb fname) include then
        match py_index String.eqb fname include with
        | Some i => incr_at i (sel_counts st)
        | None => sel_counts st
        end
      else sel_counts st in
    mk_sel (sel_files st ++ [file]) counts filenames
  else
    let matches_keep := map (pattern_matches fname) include in
    let matches_remove := map (pattern_matches fname) exclude in
    if (match include with [] => true | _ => false end || existsb id matches_keep)
       && negb (existsb id matches_remove)
    then
      let counts :=
        if existsb id matches_keep then
          match py_index Bool.eqb true matches_keep with
          | Some i => incr_at i (sel_counts st)
          | None => sel_counts st
          end
        else sel_counts st in
      mk_sel (sel_files st ++ [file]) counts filenames
    else mk_sel (sel_files st) (sel_counts st) filenames.

Definition init_state (include : list string) : sel_state :=
  mk_sel [] (repeat 0 (length include)) [].

Definition select_loop (include exclude : list string) (es : list entity) : sel_state :=
  fold_left (select_step include exclude) es (init_state include).

(** Errors the selection raises. *)
Inductive sel_error :=
| IncludeNotFound (pattern : string) (suggestions : list string).

(** [for idx, count in enumerate(include_counts): if count == 0: ...]:
    the first index with a zero count. *)
Fixpoint first_zero (i : nat) (counts : list nat) : option nat :=
  match counts with
  | [] => None
  | O :: _ => Some i
  | S _ :: cs => first_zero (S i) cs
  end.

(** The per-file keep decision of the loop. *)
Definition keep_pred (include exclude : list string) (file : entity) : bool :=
  let fname := filename file in
  is_essential fname
  || ((match include with [] => true | _ => false end || existsb (pattern_matches fname) include)
      && negb (existsb (pattern_matches fname) exclude)).

(** The include pattern (index) a file is credited to by the loop:
    an essential file credits the first pattern equal to its name; any
    other kept file credits the first pattern that matches it. *)
Definition credited (include exclude : list string) (i : nat) (file : entity) : bool :=
  let fname := filename file in
  if is_essential fname then
    match py_index String.eqb fname include with Some j => Nat.eqb j i | None => false end
  else
    keep_pred include exclude file &&
    match py_index Bool.eqb true (map (pattern_matches fname) include) with
    | Some j => Nat.eqb j i
    | None => false
    end.

(** How many of [es] credit pattern [i]: its entry of [include_counts]. *)
Definition count_credited (include exclude : list string) (i : nat) (es : list entity) : nat :=
  length (filter (credited include exclude i) es).

Section WithCloseMatches.

(** [difflib.get_close_matches(word, possibilities)] from the Python
    standard library. *)
Variable get_close_matches : string -> list string -> list string.

(** The whole selection: the loop, then the include check.  The error
    message is [Could not find path in the dataset:\n- {this}\n{extra}]
    where [extra] lists [maybe] when it is non-empty. *)
Definition select (include exclude : list string) (es : list entity)
  : sel_error + list entity :=
  let st := select_loop include exclude es in
  match include with
  | [] => inr (sel_files st)
  | _ =>
      match first_zero 0 (sel_counts st) with
      | Some idx =>
          let this := nth idx include "" in
          inl (IncludeNotFound this (get_close_matches this (sel_filenames st)))
      | None => inr (sel_files st)
      end
  end.

End WithCloseMatches.

End Select.

(* ================================================================= *)
(** ** [_iterate_filenames]

    The remote tree as the metadata queries reveal it: a node is the
    entity of the listing, and a directory node carries the listing
    that the query with [tree: "<id>"] returns for it. *)
Module Walk.

Inductive tree := Node (e : entity) (kids : list tree).

Definition node_entity (t : tree) : entity := match t with Node e _ => e end.
Definition node_kids (t : tree) : list tree := match t with Node _ k => k end.

(** [if root: entity['filename'] = f'{root}/{entity["filename"]}'] *)
Definition child_path (root name : string) : string :=
  match root with
  | EmptyString => name
  | _ => root ++ "/" ++ name
  end.

Definition rename (root : string) (e : entity) : entity :=
  mk_entity (child_path root (filename e)) (directory e) (ent_id e) (size e) (urls e).

(** The first loop: every non-directory entity, renamed, in order. *)
Definition yield_files (root : string) (ts : list tree) : list entity :=
  map (rename root) (filter (fun e => negb (directory e)) (map node_entity ts)).

(** The entities yielded below one directory node [t] of a listing
    under [root]: the recursive call with [root=this_dir]. *)
Fixpoint walk_dir (root : string) (t : tree) {struct t} : list entity :=
  match t with
  | Node e kids =>
      let this_dir := child_path root (filename e) in
      yield_files this_dir kids ++
      (fix dirs (l : list tree) : list entity :=
         match l with
         | [] => []
         | k :: l' => (if directory (node_entity k) then walk_dir this_dir k else []) ++ dirs l'
         end) kids
  end.

(** [_iterate_filenames(files, root=root)]: files first, then the
    directories in the order of the listing. *)
Definition iterate_filenames (root : string) (ts : list tree) : list entity :=
  yield_files root ts ++
  concat (map (fun t => if directory (node_entity t) then walk_dir root t else []) ts).

(** Induction over trees with a hypothesis for every child. *)
Fixpoint tree_rect' (P : tree -> Prop)
  (H : forall e kids, Forall P kids -> P (Node e kids)) (t : tree) {struct t} : P t :=
  match t with
  | Node e kids =>
      H e kids
        ((fix all (l : list tree) : Forall P l :=
            match l with
            | [] => Forall_nil P
            | k :: l' => Forall_cons k (tree_rect' P H k) (all l')
            end) kids)
  end.

End Walk.

(* ================================================================= *)
(** ** [_download_file] and [_retrieve_and_write_to_disk], one attempt

    The HEAD request gives the [etag] and [content-length] headers; the
    local file is [None] when it does not exist. The MD5 digest is a
    parameter [md5] (its hex digest). *)
Module FileDl.

Record remote_file := mk_remote {
  rf_content : string;              (** the bytes the server holds *)
  rf_content_length : option nat;   (** [content-length] header of HEAD *)
  rf_etag : option string           (** [etag] header of HEAD *)
}.

Inductive request :=
| HEAD (url : string)
| GET (url : string) (headers : list (string * string)).

Inductive mode := WB | AB.

Inductive file_outcome :=
| Skipped
| Completed
| HashAssertionError
| SizeMismatch (remote local : nat)
| HttpError (status : nat).

Definition dquote : ascii := ascii_of_nat 34.

Fixpoint lstrip_quotes (l : list ascii) : list ascii :=
  match l with
  | c :: l' => if Ascii.eqb c dquote then lstrip_quotes l' else l
  | [] => []
  end.

(** [s.strip] of the double-quote character, at both ends *)
Definition strip_quotes (s : string) : string :=
  string_of_list_ascii (rev (lstrip_quotes (rev (lstrip_quotes (list_ascii_of_string s))))).

(** [remote_file_hash]: the [etag] header with its double quotes
    stripped, [None] unless it is 32 characters long, or on [KeyError]. *)
Definition etag_hash (etag : option string) : option string :=
  match etag with
  | None => None
  | Some t => let h := strip_quotes t in if Nat.eqb (String.length h) 32 then Some h else None
  end.

(** [f'bytes={local_file_size}-'] *)
Definition dec (n : nat) : string := NilEmpty.string_of_uint (Nat.to_uint n).

Definition range_header (k : nat) : string * string := ("Range", ("bytes=" ++ dec k ++ "-")%string).

(** What the code decides after the HEAD request (lines 278-323): skip,
    or fetch with a mode, an optional range start, whether the local
    file was unlinked first, and [local_file_size]. *)
Inductive plan :=
| PSkip
| PFetch (m : mode) (range_from : option nat) (unlinked : bool) (local_file_size : nat).

Section WithMd5.
Variable md5 : string -> string.

Definition plan_download (verify_hash : bool) (local : option string)
  (remote_file_size : option nat) (remote_file_hash : option string) : plan :=
  let local_file_size := match local with Some c => String.length c | None => 0 end in
  match local with
  | Some c =>
      if match remote_file_size with Some n => Nat.eqb local_file_size n | None => false end then
        if verify_hash && match remote_file_hash with
                          | Some h => negb (String.eqb (md5 c) h)
                          | None => false end
        then PFetch WB None true 0          (* hash mismatch: unlink, 'wb' *)
        else PSkip                          (* already downloaded *)
      else if match remote_file_size with Some n => Nat.ltb local_file_size n | None => false end
      then PFetch AB (Some local_file_size) false local_file_size   (* resume *)
      else PFetch WB None true 0            (* size mismatch: unlink, 'wb' *)
  | None => PFetch WB None false 0          (* fresh download *)
  end.

(** The HTTP server answering the GET: the whole content, or for
    [Range: bytes=k-] the content from offset [k] (status 206), or
    status 416 when [k] is past its end. *)
Definition serve (rf : remote_file) (range_from : option nat) : nat + string :=
  match range_from with
  | None => inr (rf_content rf)
  | Some k =>
      if Nat.ltb k (String.length (rf_content rf))
      then inr (substring k (String.length (rf_content rf) - k) (rf_content rf))
      else inl 416
  end.

(** One attempt: the requests sent, the local file afterwards, the
    outcome. *)
Definition download_file_attempt (verify_hash verify_size : bool) (url : string)
  (local : option string) (rf : remote_file)
  : list request * option string * file_outcome :=
  let remote_file_hash := etag_hash (rf_etag rf) in
  let remote_file_size := rf_content_length rf in
  match plan_download verify_hash local remote_file_size remote_file_hash with
  | PSkip => ([HEAD url], local, Skipped)
  | PFetch m rng unlinked local_file_size =>
      let headers := [("Accept-Encoding", "")] ++
                     match rng with Some k => [range_header k] | None => [] end in
      let reqs := [HEAD url; GET url headers] in
      let before := if unlinked then None else local in
      match serve rf rng with
      | inl status => (reqs, before, HttpError status)
      | inr payload =>
          let base := match m with
                      | AB => match before with Some c => c | None => "" end
                      | WB => "" end in
          let final := (base ++ payload)%string in
          let hashed := ((if verify_hash && Nat.ltb 0 local_file_size then base else "") ++ payload)%string in
          if verify_hash && match remote_file_hash with
                            | Some h => negb (String.eqb (md5 hashed) h)
                            | None => false end
          then (reqs, Some final, HashAssertionError)
          else if verify_size && match remote_file_size with
                                 | Some n => negb (Nat.eqb (String.length final) n)
                                 | None => false end
          then (reqs, Some final,
                SizeMismatch (match remote_file_size with Some n => n | None => 0 end)
                             (String.length final))
          else (reqs, Some final, Completed)
      end
  end.

End WithMd5.

End FileDl.

(* ================================================================= *)
(** ** Python [json.loads] (strict mode)

    The decoder of the [json] module: whitespace is space, tab, newline
    and carriage return; numbers are the module's [NUMBER_RE]: an
    optional minus, [0] or a digit run not starting with [0], an
    optional fraction, an optional exponent (kept as their text), plus [NaN], [Infinity], [-Infinity]; strings
    reject control characters and unknown escapes.

    A Python [str] is held as its UTF-8 encoding, a lone surrogate
    encoded like any other code point (three bytes [ED A0..BF 80..BF]).
    This code is prefix-free and self-synchronising, so equality,
    [startswith], [in] and [replace] on the code points are the same
    operations on the bytes. A [\u] escape yields the bytes of its code
    point; a high surrogate followed by [\u] and a low surrogate is
    joined with it, as [scanstring_unicode] of [_json.c] does. Outside
    strings the decoder accepts ASCII only, so bytes and characters agree
    there as well.

    Every array and object entered goes through [Py_EnterRecursiveCall];
    [depth_limit] is how many of them the interpreter lets [json.loads]
    nest at its call before that raises [RecursionError]. *)
Module Json.

Inductive value :=
| JNull
| JBool (b : bool)
| JNum (lexeme : string)
| JStr (s : string)
| JArr (items : list value)
| JObj (fields : list (string * value)).

Definition is_ws (c : ascii) : bool :=
  let n := nat_of_ascii c in Nat.eqb n 32 || Nat.eqb n 9 || Nat.eqb n 10 || Nat.eqb n 13.

Fixpoint skip_ws (l : list ascii) : list ascii :=
  match l with
  | c :: l' => if is_ws c then skip_ws l' else l
  | [] => []
  end.

Definition is_digit (c : ascii) : bool :=
  Nat.leb 48 (nat_of_ascii c) && Nat.leb (nat_of_ascii c) 57.

Fixpoint span_digits (l : list ascii) : list ascii * list ascii :=
  match l with
  | c :: l' => if is_digit c then let '(d, r) := span_digits l' in (c :: d, r) else ([], l)
  | [] => ([], [])
  end.

Definition hex_val (c : ascii) : option nat :=
  let n := nat_of_ascii c in
  if Nat.leb 48 n && Nat.leb n 57 then Some (n - 48)
  else if Nat.leb 97 n && Nat.leb n 102 then Some (n - 87)
  else if Nat.leb 65 n && Nat.leb n 70 then Some (n - 55)
  else None.

Definition chr (n : nat) : ascii := ascii_of_nat n.

(** The UTF-8 bytes of a code point below [0x110000]. *)
Definition utf8 (cp : N) : list ascii :=
  if (cp <? 128)%N then [ascii_of_N cp]
  else if (cp <? 2048)%N then [ascii_of_N (192 + cp / 64); ascii_of_N (128 + cp mod 64)]%N
  else if (cp <? 65536)%N then
    [ascii_of_N (224 + cp / 4096); ascii_of_N (128 + (cp / 64) mod 64);
     ascii_of_N (128 + cp mod 64)]%N
  else
    [ascii_of_N (240 + cp / 262144); ascii_of_N (128 + (cp / 4096) mod 64);
     ascii_of_N (128 + (cp / 64) mod 64); ascii_of_N (128 + cp mod 64)]%N.

Definition in_range (lo hi : nat) (c : ascii) : bool :=
  Nat.leb lo (nat_of_ascii c) && Nat.leb (nat_of_ascii c) hi.

(** Well-formed UTF-8 (Unicode, Table 3-7): what
    [read_text(encoding='utf-8')] decodes without [UnicodeDecodeError];
    overlong forms, surrogates and code points above [0x10FFFF] are
    rejected. *)
Fixpoint utf8_valid (l : list ascii) : bool :=
  match l with
  | [] => true
  | c :: r =>
      let n := nat_of_ascii c in
      if Nat.ltb n 128 then utf8_valid r
      else if in_range 194 223 c then
        match r with
        | c1 :: r1 => in_range 128 191 c1 && utf8_valid r1
        | _ => false
        end
      else if in_range 224 239 c then
        match r with
        | c1 :: c2 :: r2 =>
            (if Nat.eqb n 224 then in_range 160 191 c1
             else if Nat.eqb n 237 then in_range 128 159 c1
             else in_range 128 191 c1)
            && in_range 128 191 c2 && utf8_valid r2
        | _ => false
        end
      else if in_range 240 244 c then
        match r with
        | c1 :: c2 :: c3 :: r3 =>
            (if Nat.eqb n 240 then in_range 144 191 c1
             else if Nat.eqb n 244 then in_range 128 143 c1
             else in_range 128 191 c1)
            && in_range 128 191 c2 && in_range 128 191 c3 && utf8_valid r3
        | _ => false
        end
      else false
  end.

(** The four hex digits of a [\uXXXX] escape. *)
Definition hex4 (h1 h2 h3 h4 : ascii) : option N :=
  match hex_val h1, hex_val h2, hex_val h3, hex_val h4 with
  | Some a, Some b, Some d, Some f =>
      Some (N.of_nat a * 4096 + N.of_nat b * 256 + N.of_nat d * 16 + N.of_nat f)%N
  | _, _, _, _ => None
  end.

Definition is_high_surrogate (c : N) : bool := (55296 <=? c)%N && (c <=? 56319)%N.
Definition is_low_surrogate (c : N) : bool := (56320 <=? c)%N && (c <=? 57343)%N.

(** [Py_UNICODE_JOIN_SURROGATES] *)
Definition join_surrogates (hi lo : N) : N := (65536 + (hi - 55296) * 1024 + (lo - 56320))%N.


(** [py_scanstring]: the text after the opening quote. *)
Fixpoint scan_string (l : list ascii) (acc : list ascii) : option (string * list ascii) :=
  match l with
  | [] => None
  | c :: l' =>
      if Nat.eqb (nat_of_ascii c) 34 then Some (string_of_list_ascii (rev acc), l')
      else if Nat.eqb (nat_of_ascii c) 92 then
        match l' with
        | [] => None
        | e :: l'' =>
            let n := nat_of_ascii e in
            if Nat.eqb n 34 || Nat.eqb n 92 || Nat.eqb n 47 then scan_string l'' (e :: acc)
            else if Nat.eqb n 98 then scan_string l'' (chr 8 :: acc)
            else if Nat.eqb n 102 then scan_string l'' (chr 12 :: acc)
            else if Nat.eqb n 110 then scan_string l'' (chr 10 :: acc)
            else if Nat.eqb n 114 then scan_string l'' (chr 13 :: acc)
            else if Nat.eqb n 116 then scan_string l'' (chr 9 :: acc)
            else if Nat.eqb n 117 then
              match l'' with
              | h1 :: h2 :: h3 :: h4 :: rest =>
                  match hex4 h1 h2 h3 h4 with
                  | None => None
                  | Some code =>
                      (* a high surrogate followed by [\u], four hex digits and
                         at least one more character ([end + 6 < len]) reads
                         the second escape: invalid digits raise, a low
                         surrogate is joined with it, anything else leaves the
                         high surrogate alone and scanning resumes right after
                         the first escape ([end -= 6]) *)
                      if is_high_surrogate code then
                        match rest with
                        | b :: u :: g1 :: g2 :: g3 :: g4 :: rest' =>
                            match rest' with
                            | [] => scan_string rest (rev (utf8 code) ++ acc)
                            | _ :: _ =>
                                if Ascii.eqb b "\"%char && Ascii.eqb u "u"%char then
                                  match hex4 g1 g2 g3 g4 with
                                  | None => None
                                  | Some c2 =>
                                      if is_low_surrogate c2
                                      then scan_string rest' (rev (utf8 (join_surrogates code c2)) ++ acc)
                                      else scan_string rest (rev (utf8 code) ++ acc)
                                  end
                                else scan_string rest (rev (utf8 code) ++ acc)
                            end
                        | _ => scan_string rest (rev (utf8 code) ++ acc)
                        end
                      else scan_string rest (rev (utf8 code) ++ acc)
                  end
              | _ => None
              end
            else None
        end
      else if Nat.ltb (nat_of_ascii c) 32 then None
      else scan_string l' (c :: acc)
  end.

(** [NUMBER_RE.match(s, idx)] *)
Definition scan_number (l : list ascii) : option (list ascii * list ascii) :=
  let '(sign, l1) := match l with
                     | c :: r => if Nat.eqb (nat_of_ascii c) 45 then ([c], r) else ([], l)
                     | [] => ([], l) end in
  let int_part :=
    match l1 with
    | c :: r =>
        if Nat.eqb (nat_of_ascii c) 48 then Some ([c], r)
        else if is_digit c then let '(d, r') := span_digits r in Some (c :: d, r')
        else None
    | [] => None
    end in
  match int_part with
  | None => None
  | Some (ip, l2) =>
      let '(fp, l3) :=
        match l2 with
        | c :: r =>
            if Nat.eqb (nat_of_ascii c) 46 then
              match span_digits r with
              | ([], _) => ([], l2)
              | (d, r') => (c :: d, r')
              end
            else ([], l2)
        | [] => ([], l2)
        end in
      let '(ep, l4) :=
        match l3 with
        | c :: r =>
            if Nat.eqb (nat_of_ascii c) 101 || Nat.eqb (nat_of_ascii c) 69 then
              let '(sg, r1) := match r with
                               | s :: r1 => if Nat.eqb (nat_of_ascii s) 43 || Nat.eqb (nat_of_ascii s) 45
                                            then ([s], r1) else ([], r)
                               | [] => ([], r) end in
              match span_digits r1 with
              | ([], _) => ([], l3)
              | (d, r') => (c :: sg ++ d, r')
              end
            else ([], l3)
        | [] => ([], l3)
        end in
      Some (sign ++ ip ++ fp ++ ep, l4)
  end.

Fixpoint starts_with (p l : list ascii) : option (list ascii) :=
  match p, l with
  | [], _ => Some l
  | a :: p', b :: l' => if Ascii.eqb a b then starts_with p' l' else None
  | _ :: _, [] => None
  end.

Definition lit (s : string) : list ascii := list_ascii_of_string s.

(** [scan_once], [JSONArray] and [JSONObject]; [fuel] bounds the
    nesting of calls, [depth] is what is left of [depth_limit]: an array
    or object entered with none left raises [RecursionError]. *)
Fixpoint scan_value (fuel depth : nat) (l : list ascii) : option (value * list ascii) :=
  match fuel with
  | O => None
  | S f =>
      match l with
      | [] => None
      | c :: r =>
          let n := nat_of_ascii c in
          if Nat.eqb n 34 then
            match scan_string r [] with Some (s, r') => Some (JStr s, r') | None => None end
          else if Nat.eqb n 123 then
            match depth with
            | O => None
            | S d =>
                match skip_ws r with
                | c' :: r' =>
                    if Nat.eqb (nat_of_ascii c') 125 then Some (JObj [], r')
                    else scan_members f d (skip_ws r) []
                | [] => None
                end
            end
          else if Nat.eqb n 91 then
            match depth with
            | O => None
            | S d =>
                match skip_ws r with
                | c' :: r' =>
                    if Nat.eqb (nat_of_ascii c') 93 then Some (JArr [], r')
                    else scan_elems f d (skip_ws r) []
                | [] => None
                end
            end
          else
            match starts_with (lit "null") l with Some r' => Some (JNull, r') | None =>
            match starts_with (lit "true") l with Some r' => Some (JBool true, r') | None =>
            match starts_with (lit "false") l with Some r' => Some (JBool false, r') | None =>
            match scan_number l with
            | Some (num, r') => Some (JNum (string_of_list_ascii num), r')
            | None =>
              match starts_with (lit "NaN") l with Some r' => Some (JNum "NaN", r') | None =>
              match starts_with (lit "Infinity") l with Some r' => Some (JNum "Infinity", r') | None =>
              match starts_with (lit "-Infinity") l with Some r' => Some (JNum "-Infinity", r')
              | None => None
              end end end
            end end end end
      end
  end
with scan_elems (fuel depth : nat) (l : list ascii) (acc : list value)
  : option (value * list ascii) :=
  match fuel with
  | O => None
  | S f =>
      match scan_value f depth l with
      | None => None
      | Some (v, r) =>
          match skip_ws r with
          | c :: r' =>
              if Nat.eqb (nat_of_ascii c) 93 then Some (JArr (rev (v :: acc)), r')
              else if Nat.eqb (nat_of_ascii c) 44 then scan_elems f depth (skip_ws r') (v :: acc)
              else None
          | [] => None
          end
      end
  end
with scan_members (fuel depth : nat) (l : list ascii) (acc : list (string * value))
  : option (value * list ascii) :=
  match fuel with
  | O => None
  | S f =>
      match l with
      | c :: r =>
          if Nat.eqb (nat_of_ascii c) 34 then
            match scan_string r [] with
            | None => None
            | Some (key, r1) =>
                match skip_ws r1 with
                | c1 :: r2 =>
                    if Nat.eqb (nat_of_ascii c1) 58 then
                      match scan_value f depth (skip_ws r2) with
                      | None => None
                      | Some (v, r3) =>
                          match skip_ws r3 with
                          | c2 :: r4 =>
                              if Nat.eqb (nat_of_ascii c2) 125 then
                                Some (JObj (rev ((key, v) :: acc)), r4)
                              else if Nat.eqb (nat_of_ascii c2) 44 then
                                scan_members f depth (skip_ws r4) ((key, v) :: acc)
                              else None
                          | [] => None
                          end
                      end
                    else None
                | [] => None
                end
            end
          else None
      | [] => None
      end
  end.

(** [json.loads(s)]: one value, surrounded by whitespace only; [None]
    when it raises. Its argument here is always text [read_text] has
    decoded, so it is taken as well-formed UTF-8; bytes that are not
    encode no such text and give [None]. *)
Definition loads (depth_limit : nat) (s : string) : option value :=
  let l := list_ascii_of_string s in
  if negb (utf8_valid l) then None else
  match scan_value (3 * length l + 3) depth_limit (skip_ws l) with
  | Some (v, r) => match skip_ws r with [] => Some v | _ => None end
  | None => None
  end.

(** [d[key]] on the dict built from the pairs: the last binding wins. *)
Fixpoint dict_get (fields : list (string * value)) (key : string) : option value :=
  match fields with
  | [] => None
  | (k, v) :: fs =>
      match dict_get fs key with
      | Some w => Some w
      | None => if String.eqb k key then Some v else None
      end
  end.

End Json.

(* ================================================================= *)
(** ** [_get_local_tag] *)
Module Probe.
Import Json.

Inductive probe_error :=
| MissingDOI                  (** [RuntimeError]: no [DatasetDOI] field *)
| DatasetMismatch (doi : string)  (** [RuntimeError]: another dataset *)
| JSONDecodeError             (** raised by [json.loads] ([RecursionError]
                                  past the nesting limit included) *)
| TypeErr                     (** [in] or [[...]] on a value that has none *)
| AttributeErr                (** [startswith] on a value that is no [str] *)
| UnicodeDecodeErr            (** [read_text(encoding='utf-8')] on bytes that
                                  are not UTF-8 *)
| IsADirectoryErr.            (** [read_text] on a directory *)

(** [s.replace(old, new)] for a non-empty [old]: every occurrence, left
    to right. *)
Fixpoint replace_aux (fuel : nat) (old new s : string) : string :=
  match fuel with
  | O => s
  | S f =>
      if String.prefix old s then
        (new ++ replace_aux f old new
                 (substring (String.length old) (String.length s - String.length old) s))%string
      else match s with
           | EmptyString => EmptyString
           | String c s' => String c (replace_aux f old new s')
           end
  end.

Definition py_replace (s old new : string) : string := replace_aux (S (String.length s)) old new s.

(** [key in v]: dict keys, list items, or a substring. *)
Definition py_contains (v : value) (key : string) : probe_error + bool :=
  match v with
  | JObj fs => inr (existsb (fun kv => String.eqb (fst kv) key) fs)
  | JArr l => inr (existsb (fun x => match x with JStr s => String.eqb s key | _ => false end) l)
  | JStr s => inr (match String.index 0 key s with Some _ => true | None => false end)
  | _ => inl TypeErr
  end.

(** [v[key]] for a string key. *)
Definition py_getitem (v : value) (key : string) : probe_error + value :=
  match v with
  | JObj fs => match dict_get fs key with Some x => inr x | None => inl TypeErr end
  | _ => inl TypeErr
  end.

Definition expected_doi_start (dataset_id : string) : string :=
  ("10.18112/openneuro." ++ dataset_id ++ ".v")%string.

(** [if local_doi.startswith('doi:'): local_doi = local_doi[4:]] *)
Definition strip_doi (d : string) : string :=
  if String.prefix "doi:" d then substring 4 (String.length d - 4) d else d.

(** [_get_local_tag]: [manifest] holds the bytes of the file
    [dataset_dir / 'dataset_description.json'], [None] when nothing is
    there. A directory at that path ([exists()] holds, [read_text] raises
    [IsADirectoryError]) is dealt with where the path is looked up, in
    [Sync.revision_check]. *)
Definition get_local_tag (depth_limit : nat) (dataset_id : string) (manifest : option string)
  : probe_error + option string :=
  match manifest with
  | None => inr None
  | Some txt =>
      if negb (utf8_valid (list_ascii_of_string txt)) then inl UnicodeDecodeErr else
      if String.eqb txt "" then inr None else
      match loads depth_limit txt with
      | None => inl JSONDecodeError
      | Some local_json =>
          match py_contains local_json "DatasetDOI" with
          | inl e => inl e
          | inr false => inl MissingDOI
          | inr true =>
              match py_getitem local_json "DatasetDOI" with
              | inl e => inl e
              | inr (JStr doi) =>
                  let local_doi := strip_doi doi in
                  if String.prefix (expected_doi_start dataset_id) local_doi
                  then inr (Some (py_replace local_doi (expected_doi_start dataset_id) ""))
                  else inl (DatasetMismatch doi)
              | inr _ => inl AttributeErr
              end
          end
      end
  end.

End Probe.

(* ================================================================= *)
(** ** [download]: revision check, traversal, selection, downloads

    The metadata query is taken as answered ([_get_download_metadata]
    returned [metadata]); the target directory is its list of
    sub-directories and its files with their contents, keyed by the
    path relative to it. *)
Module Sync.
Import Select Walk FileDl Probe.

Record local_dir := mk_dir {
  ld_exists : bool;
  ld_dirs : list string;
  ld_files : list (string * string)
}.

Record metadata := mk_meta {
  md_id : string;            (** [metadata['id']], ['<dataset>:<tag>'] *)
  md_files : list tree       (** [metadata['files']] and what lies below *)
}.

Inductive dl_error :=
| EProbe (e : probe_error)
| ERevisionConflict (requested local : string)   (** [FileExistsError] *)
| ESelect (e : sel_error)
| ENoUrl (path : string)                         (** [IndexError] on [urls[0]] *)
| EMkdir (path : string)   (** [FileExistsError] or [NotADirectoryError] from
                               [outfile.parent.mkdir]: a parent of [path] is a file *)
| EFile (path : string) (o : file_outcome).

Fixpoint lookup (files : list (string * string)) (p : string) : option string :=
  match files with
  | [] => None
  | (q, c) :: fs => if String.eqb q p then Some c else lookup fs p
  end.

Definition remove_file (files : list (string * string)) (p : string) : list (string * string) :=
  filter (fun qc => negb (String.eqb (fst qc) p)) files.

Definition put_file (files : list (string * string)) (p : string) (c : option string)
  : list (string * string) :=
  match c with
  | Some x => remove_file files p ++ [(p, x)]
  | None => remove_file files p
  end.

(** [len(list(target_dir.rglob('*'))) == 0] *)
Definition dir_empty (d : local_dir) : bool :=
  match ld_dirs d, ld_files d with [], [] => true | _, _ => false end.

(** [metadata['id'].replace(f'{dataset}:', '')] *)
Definition effective_tag (dataset : string) (meta : metadata) : string :=
  py_replace (md_id meta) (dataset ++ ":") "".

Definition warn_unknown_revision : string :=
  "Cannot determine local revision of the dataset, and the target directory is not empty.".

(** [_get_local_tag(dataset_id=..., dataset_dir=target_dir)]: a
    directory named [dataset_description.json] exists, and [read_text]
    raises [IsADirectoryError] on it. *)
Definition probe_local (depth_limit : nat) (dataset : string) (target : local_dir)
  : probe_error + option string :=
  match lookup (ld_files target) "dataset_description.json" with
  | Some txt => get_local_tag depth_limit dataset (Some txt)
  | None =>
      if existsb (String.eqb "dataset_description.json") (ld_dirs target)
      then inl IsADirectoryErr
      else get_local_tag depth_limit dataset None
  end.

(** Lines 656-674: [inr] carries the warnings written. *)
Definition revision_check (depth_limit : nat) (dataset tag : string) (target : local_dir)
  : dl_error + list string :=
  if ld_exists target && negb (dir_empty target) then
    match probe_local depth_limit dataset target with
    | inl e => inl (EProbe e)
    | inr None => inr [warn_unknown_revision]
    | inr (Some local_tag) =>
        if String.eqb local_tag tag then inr [] else inl (ERevisionConflict tag local_tag)
    end
  else inr [].

(** The parent directories of a relative path: [a/b/c] gives [a], [a/b]. *)
Fixpoint parents_aux (seen : list ascii) (l : list ascii) : list string :=
  match l with
  | [] => []
  | c :: l' =>
      if Ascii.eqb c "/"%char
      then string_of_list_ascii (rev seen) :: parents_aux (c :: seen) l'
      else parents_aux (c :: seen) l'
  end.

Definition parent_dirs (p : string) : list string := parents_aux [] (list_ascii_of_string p).

(** [outfile.parent.mkdir(parents=True, exist_ok=True)] when no parent
    of [p] is a file. *)
Definition mkdirs (dirs : list string) (p : string) : list string :=
  dirs ++ filter (fun q => negb (existsb (String.eqb q) dirs)) (parent_dirs p).

(** A parent of [p] that is a file makes that [mkdir] raise
    [FileExistsError] (the parent itself) or [NotADirectoryError] (a
    parent further up) before it creates anything. *)
Definition parent_is_file (files : list (string * string)) (p : string) : bool :=
  existsb (fun q => match lookup files q with Some _ => true | None => false end) (parent_dirs p).

Section WithEnv.
Variable md5 : string -> string.
Variable get_close_matches : string -> list string -> list string.
(** The file server, by URL. *)
Variable server : string -> remote_file.
(** How many arrays and objects [json.loads] may nest at its call. *)
Variable depth_limit : nat.

(** The first loop of [_download_files]: [urls[0]] and the parent
    directories of every file; an [IndexError] or a failing [mkdir]
    stops it with the directories made so far. *)
Fixpoint prepare (d : local_dir) (files : list entity)
  : local_dir * list (string * string) * option dl_error :=
  match files with
  | [] => (d, [], None)
  | f :: fs =>
      match urls f with
      | [] => (d, [], Some (ENoUrl (filename f)))
      | url :: _ =>
          if parent_is_file (ld_files d) (filename f) then (d, [], Some (EMkdir (filename f))) else
          let d' := mk_dir true (mkdirs (ld_dirs d) (filename f)) (ld_files d) in
          let '(d'', jobs, err) := prepare d' fs in
          (d'', (filename f, url) :: jobs, err)
      end
  end.

(** [asyncio.gather] over the tasks, run here one after the other; the
    first failing file ends the run. *)
Fixpoint run_jobs (verify_hash verify_size : bool) (d : local_dir) (jobs : list (string * string))
  : (dl_error + unit) * local_dir :=
  match jobs with
  | [] => (inr tt, d)
  | (p, url) :: js =>
      let '(_, after, outcome) :=
        download_file_attempt md5 verify_hash verify_size url (lookup (ld_files d) p) (server url) in
      let d' := mk_dir (ld_exists d) (ld_dirs d) (put_file (ld_files d) p after) in
      match outcome with
      | Completed | Skipped => run_jobs verify_hash verify_size d' js
      | o => (inl (EFile p o), d')
      end
  end.

(** Lines 676-759: traversal, selection, downloads. *)
Definition proceed (dataset : string) (meta : metadata) (target : local_dir)
  (include exclude : list string) (verify_hash verify_size : bool)
  : (dl_error + unit) * local_dir :=
  let entries := iterate_filenames "" (md_files meta) in
  match select get_close_matches include exclude entries with
  | inl e => (inl (ESelect e), target)
  | inr files =>
      match prepare target files with
      | (d, _, Some e) => (inl e, d)
      | (d, jobs, None) => run_jobs verify_hash verify_size d jobs
      end
  end.

(** [download(dataset=..., target_dir=..., include=..., exclude=...)]
    after the metadata query: the outcome, the target directory
    afterwards, and the warnings written. *)
Definition download (dataset : string) (meta : metadata) (target : local_dir)
  (include exclude : list string) (verify_hash verify_size : bool)
  : (dl_error + unit) * local_dir * list string :=
  let tag := effective_tag dataset meta in
  match revision_check depth_limit dataset tag target with
  | inl e => (inl e, target, [])
  | inr warnings =>
      let '(r, d) := proceed dataset meta target include exclude verify_hash verify_size in
      (r, d, warnings)
  end.

End WithEnv.

End Sync.

(** ** The concurrency limit: [_download_files], [_download_file], [_retry_download]

    [_download_files] shares one [asyncio.Semaphore(max_concurrent_downloads)]
    between all tasks.  [_download_file] enters [async with semaphore]
    around its HEAD request (lines 242-273) and again around its GET
    (lines 325-365); on a retryable failure it calls [_retry_download]
    from inside the block, which sleeps, calls [semaphore.release()] and
    awaits a fresh [_download_file]; the enclosing [async with] releases
    once more when that call returns.  A task is an op sequence; the
    scheduler picks which task moves next. *)
Module Sem.

Inductive op :=
| Enter            (** [async with semaphore:] entry, [acquire()] *)
| Exit             (** leaving the [async with] block, [release()] *)
| Release          (** the bare [semaphore.release()] of [_retry_download] *)
| Io (what : string)  (** a request on the wire *)
| Sleep            (** [await asyncio.sleep(retry_backoff)] *)
| Raise.           (** an exception leaving [_download_file]: the
                       [RuntimeError] when the retries are used up, or
                       any other *)

(** What one call of [_download_file] meets. *)
Inductive attempt :=
| HeadTimeout      (** [client.head] raises a retryable exception *)
| GetRetry         (** the GET fails with a retryable code or exception *)
| Fine             (** both requests succeed *)
| Skip             (** the HEAD succeeds and the local file is complete:
                       [_download_file] returns without a GET *)
| HeadFail         (** [client.head] raises an exception that is not retried *)
| GetFail.         (** the GET fails for good: an error code that is not
                       retried, an exception that is not retried, or a
                       failed size or hash check while writing *)

(** The ops of [_download_file] with [max_retries] retries left, the
    calls meeting [outcomes] in turn (an exhausted list meets [Fine]). *)
Fixpoint download_file_ops (max_retries : nat) (outcomes : list attempt) : list op :=
  match outcomes with
  | [] | Fine :: _ => [Enter; Io "HEAD"; Exit; Enter; Io "GET"; Exit]
  | Skip :: _ => [Enter; Io "HEAD"; Exit]
  | HeadFail :: _ => [Enter; Io "HEAD"; Exit; Raise]
  | GetFail :: _ => [Enter; Io "HEAD"; Exit; Enter; Io "GET"; Exit; Raise]
  | HeadTimeout :: rest =>
      match max_retries with
      | O => [Enter; Io "HEAD"; Exit; Raise]
      | S m => [Enter; Io "HEAD"; Sleep; Release] ++ download_file_ops m rest ++ [Exit]
      end
  | GetRetry :: rest =>
      match max_retries with
      | O => [Enter; Io "HEAD"; Exit; Enter; Io "GET"; Exit; Raise]
      | S m => [Enter; Io "HEAD"; Exit; Enter; Io "GET"; Sleep; Release]
                 ++ download_file_ops m rest ++ [Exit]
      end
  end.

Record task := mk_task {
  t_ops : list op;     (** what is left to run *)
  t_depth : nat        (** [async with semaphore] blocks currently open *)
}.

Record state := mk_state {
  sem_value : nat;     (** the semaphore's counter *)
  tasks : list task
}.

(** [tasks[i] = x]; [i] is always in range where it is used. *)
Fixpoint set_nth {A} (l : list A) (i : nat) (x : A) : list A :=
  match l, i with
  | [], _ => []
  | _ :: l', O => x :: l'
  | y :: l', S i' => y :: set_nth l' i' x
  end.

Definition init (max_concurrent_downloads : nat) (progs : list (list op)) : state :=
  mk_state max_concurrent_downloads (map (fun p => mk_task p 0) progs).

(** One op of task [i]; [None] when [i] has finished or waits in
    [acquire()] on a zero counter. *)
Definition step (i : nat) (st : state) : option state :=
  match nth_error (tasks st) i with
  | None => None
  | Some t =>
      match t_ops t with
      | [] => None
      | o :: rest =>
          let upd v d := Some (mk_state v (set_nth (tasks st) i (mk_task rest d))) in
          match o with
          | Enter =>
              match sem_value st with
              | O => None
              | S v => upd v (S (t_depth t))
              end
          | Exit => upd (S (sem_value st)) (pred (t_depth t))
          | Release => upd (S (sem_value st)) (t_depth t)
          | Io _ | Sleep | Raise => upd (sem_value st) (t_depth t)
          end
      end
  end.

Fixpoint run (schedule : list nat) (st : state) : option state :=
  match schedule with
  | [] => Some st
  | i :: sch => match step i st with Some st' => run sch st' | None => None end
  end.

(** Tasks holding a slot: inside some [async with semaphore] block. *)
Definition in_flight (st : state) : nat :=
  length (filter (fun t => Nat.ltb 0 (t_depth t)) (tasks st)).

Definition next_op (i : nat) (st : state) : option op :=
  match nth_error (tasks st) i with
  | Some t => head (t_ops t)
  | None => None
  end.

(** Occurrences of an op in a program. *)
Definition op_eqb (a b : op) : bool :=
  match a, b with
  | Enter, Enter | Exit, Exit | Release, Release | Sleep, Sleep | Raise, Raise => true
  | Io x, Io y => String.eqb x y
  | _, _ => false
  end.

Definition count_op (k : op) (ops : list op) : nat := length (filter (op_eqb k) ops).

(** Occurrences summed over the ops the tasks have left. *)
Definition sum_tasks (f : list op -> nat) (ts : list task) : nat :=
  list_sum (map (fun t => f (t_ops t)) ts).

(** The ops of a file whose HEAD and GET both succeed at once. *)
Definition fine_ops : list op := download_file_ops 0 [].

End Sem.

(* ================================================================= *)
(** ** [_check_snapshot_exists] and [_get_download_metadata]

    The GraphQL endpoint is a parameter [server]: it answers a query,
    given the queries sent before it, either by timing out (one of the
    [allowed_retry_exceptions], [_safe_query] returns [(None, True)]) or
    with the decoded answer ([Answer JNull] is [None]).  The queries are
    the three templates with their substitutions.  [asyncio.sleep] is
    called without [await] in these two functions, so the backoff does
    not appear. *)
Module Meta.
Import Json Probe.

Inductive query :=
| QDataset (dataset_id : string)                 (** [dataset_query_template] *)
| QAllSnapshots (dataset_id : string)            (** [all_snapshots_query_template] *)
| QSnapshot (dataset_id tag tree : string).      (** [snapshot_query_template] *)

Inductive response :=
| TimedOut
| Answer (json : value).

Inductive meta_error :=
| SnapshotListTimeout      (** ['Timeout when trying to fetch list of snapshots.'] *)
| SnapshotMissing (tag : string) (tags : list string)   (** the tag is not among [tags] *)
| MetadataTimeout          (** ['Timeout when trying to fetch metadata.'] *)
| QueryFailed (message : value)   (** ['Query failed: ...'] *)
| FetchFailed              (** ['Error when trying to fetch metadata.'] *)
| PyError.                 (** [KeyError], [TypeError], [IndexError] or
                               [AttributeError] on a malformed answer *)

(** [v[k]] for a string key; [None] where Python raises. *)
Definition getkey (v : value) (k : string) : option value :=
  match v with JObj fs => dict_get fs k | _ => None end.

(** [v[n]] for an integer index. *)
Definition getidx (v : value) (n : nat) : option value :=
  match v with JArr l => nth_error l n | _ => None end.

Fixpoint getpath (v : value) (ks : list string) : option value :=
  match ks with
  | [] => Some v
  | k :: ks' => match getkey v k with Some x => getpath x ks' | None => None end
  end.

(** [iter(v)]: list items, dict keys, or the characters of a string. *)
Definition py_iter (v : value) : option (list value) :=
  match v with
  | JArr l => Some l
  | JObj fs => Some (map (fun kv => JStr (fst kv)) fs)
  | JStr s => Some (map (fun c => JStr (String c EmptyString)) (list_ascii_of_string s))
  | _ => None
  end.

(** [s['id'].replace(f'{dataset_id}:', '')] *)
Definition snapshot_tag (dataset_id : string) (s : value) : option string :=
  match getkey s "id" with
  | Some (JStr i) => Some (py_replace i (dataset_id ++ ":") "")
  | _ => None
  end.

Fixpoint tags_of (dataset_id : string) (l : list value) : option (list string) :=
  match l with
  | [] => Some []
  | s :: l' =>
      match snapshot_tag dataset_id s, tags_of dataset_id l' with
      | Some t, Some ts => Some (t :: ts)
      | _, _ => None
      end
  end.

(** [response_json is not None and 'errors' in response_json and
    response_json['errors'][0]['message'].startswith('504')]; [None]
    where Python raises. *)
Definition gateway_timeout (v : value) : option bool :=
  match v with
  | JNull => Some false
  | _ =>
      match py_contains v "errors" with
      | inl _ => None
      | inr false => Some false
      | inr true =>
          match getkey v "errors" with
          | None => None
          | Some errs =>
              match getidx errs 0 with
              | None => None
              | Some e =>
                  match getkey e "message" with
                  | Some (JStr m) => Some (String.prefix "504" m)
                  | _ => None
                  end
              end
          end
      end
  end.

(** [response_json["errors"][0]["message"]] *)
Definition error_message (v : value) : option value :=
  match getkey v "errors" with
  | Some errs => match getidx errs 0 with Some e => getkey e "message" | None => None end
  | None => None
  end.

(** The queries of [_get_download_metadata] itself, as opposed to
    those of [_check_snapshot_exists]. *)
Definition is_metadata_query (q : query) : bool :=
  match q with QAllSnapshots _ => false | _ => true end.

Section WithServer.
Variable server : list query -> query -> response.

(** [_safe_query]: the query is sent and logged. *)
Definition safe_query (log : list query) (q : query) : list query * response :=
  (log ++ [q], server log q).

Fixpoint check_snapshot_exists (max_retries : nat) (dataset_id tag : string) (log : list query)
  : list query * (meta_error + unit) :=
  let '(log1, r) := safe_query log (QAllSnapshots dataset_id) in
  match r with
  | TimedOut =>
      match max_retries with
      | S m => check_snapshot_exists m dataset_id tag log1
      | O => (log1, inl SnapshotListTimeout)
      end
  | Answer v =>
      match getpath v ["data"; "dataset"; "snapshots"] with
      | None => (log1, inl PyError)
      | Some snapshots =>
          match py_iter snapshots with
          | None => (log1, inl PyError)
          | Some l =>
              match tags_of dataset_id l with
              | None => (log1, inl PyError)
              | Some tags =>
                  if existsb (String.eqb tag) tags then (log1, inr tt)
                  else (log1, inl (SnapshotMissing tag tags))
              end
          end
      end
  end.

(** Lines 166-176: the snapshot check, when a tag is given. *)
Definition pre_check (max_retries : nat) (dataset_id : string) (tag : option string)
  (check_snapshot : bool) (log : list query) : list query * (meta_error + unit) :=
  match tag with
  | Some t => if check_snapshot then check_snapshot_exists max_retries dataset_id t log
              else (log, inr tt)
  | None => (log, inr tt)
  end.

(** The query of lines 166-176. *)
Definition metadata_query (dataset_id : string) (tag : option string) (tree : string) : query :=
  match tag with
  | None => QDataset dataset_id
  | Some t => QSnapshot dataset_id t tree
  end.

(** [_get_download_metadata]; the retry passes no [tree], so it is
    sent with the default ['null']. *)
Fixpoint get_download_metadata (max_retries : nat) (dataset_id : string) (tag : option string)
  (tree : string) (check_snapshot : bool) (log : list query)
  : list query * (meta_error + value) :=
  match pre_check max_retries dataset_id tag check_snapshot log with
  | (log1, inl e) => (log1, inl e)
  | (log1, inr _) =>
      let '(log2, r) := safe_query log1 (metadata_query dataset_id tag tree) in
      let timed_out := match r with TimedOut => Some true | Answer v => gateway_timeout v end in
      match timed_out with
      | None => (log2, inl PyError)
      | Some true =>
          match max_retries with
          | S m => get_download_metadata m dataset_id tag "null" check_snapshot log2
          | O => (log2, inl MetadataTimeout)
          end
      | Some false =>
          match r with
          | Answer JNull | TimedOut => (log2, inl FetchFailed)
          | Answer v =>
              match py_contains v "errors" with
              | inl _ => (log2, inl PyError)
              | inr true =>
                  match error_message v with
                  | Some msg => (log2, inl (QueryFailed msg))
                  | None => (log2, inl PyError)
                  end
              | inr false =>
                  match getpath v (match tag with
                                   | None => ["data"; "dataset"; "latestSnapshot"]
                                   | Some _ => ["data"; "snapshot"]
                                   end) with
                  | Some x => (log2, inr x)
                  | None => (log2, inl PyError)
                  end
              end
          end
      end
  end.

End WithServer.

End Meta.

(** ** Sample inputs *)
Module Samples.
Import Walk Sync.

Definition ex_file (name : string) : entity := mk_entity name false "" 1 [].

Definition ex_target (manifest : string) : local_dir :=
  mk_dir true [] [("dataset_description.json", manifest); ("README", "x")].

Definition ex_meta : metadata :=
  mk_meta "ds000001:1.0.0" [Node (ex_file "README") []].

(** [{"DatasetDOI": "<doi>"}] *)
Definition ex_manifest (doi : string) : string :=
  let q := String FileDl.dquote EmptyString in
  ("{" ++ q ++ "DatasetDOI" ++ q ++ ": " ++ q ++ doi ++ q ++ "}")%string.

Definition ex_tree : list tree :=
  [Node (ex_file "a.nii") [];
   Node (mk_entity "anat" true "" 0 []) [Node (ex_file "b.nii") []];
   Node (ex_file "c.tsv") []].

(** One slot; the first file's HEAD times out once, with one retry
    allowed; two more files download without trouble. *)
Definition ex_sem : Sem.state :=
  Sem.init 1 [Sem.download_file_ops 1 [Sem.HeadTimeout];
              Sem.download_file_ops 1 [];
              Sem.download_file_ops 1 []].

End Samples.

(** Servers, metadata and downloads used by the instances of the
    further properties. *)
Module MoreSamples.
Import Json Meta Walk FileDl Sync Samples.

(** Answers of the metadata server. *)
Definition ex_snapshot : value :=
  JObj [("data", JObj [("snapshot", JStr "root")])].

Definition ex_error (msg : string) : value :=
  JObj [("errors", JArr [JObj [("message", JStr msg)]])].

Definition ex_listing : value :=
  JObj [("data", JObj [("dataset", JObj [("snapshots", JArr [JObj [("id", JStr "ds1:1.0.0")]])])])].

(** Times out unless asked for the root tree. *)
Definition retry_server (_ : list query) (q : query) : response :=
  match q with
  | QSnapshot _ _ tr => if String.eqb tr "null" then Answer ex_snapshot else TimedOut
  | _ => TimedOut
  end.

Definition listing_server (_ : list query) (q : query) : response :=
  match q with
  | QAllSnapshots _ => Answer ex_listing
  | _ => Answer ex_snapshot
  end.

Definition ex_meta2 : metadata :=
  mk_meta "ds1:1.0" [Node (mk_entity "README" false "" 1 ["u1"]) [];
                     Node (mk_entity "sub-01" true "" 0 []) [Node (mk_entity "a.nii" false "" 3 ["u2"]) []]].

Definition ex_files_server (u : string) : remote_file := mk_remote (u ++ "!") (Some 3) None.

Definition ex_local : local_dir := mk_dir true [] [("notes.txt", "mine")].

(** The first file's HEAD times out once; the second is already
    complete and skipped after its HEAD. *)
Definition ex_skip_jobs : list (nat * list Sem.attempt) :=
  [(1, [Sem.HeadTimeout]); (1, [Sem.Skip]); (1, [])].



(** [{"DatasetDOI": "<doi>", "Name": "<name>"}], [name] as it stands
    between the quotes in the file. *)
Definition ex_named_manifest (doi name : string) : string :=
  let q := String FileDl.dquote EmptyString in
  ("{" ++ q ++ "DatasetDOI" ++ q ++ ": " ++ q ++ doi ++ q ++ ", "
       ++ q ++ "Name" ++ q ++ ": " ++ q ++ name ++ q ++ "}")%string.

Definition ex_fine_jobs : list (nat * list Sem.attempt) := [(1, []); (1, [Sem.Fine]); (2, [Sem.Fine; Sem.HeadTimeout])].

End MoreSamples.

(* ================================================================= *)
(** * Properties *)

(** ** Sanity checks of the glob model *)
Example fnmatch_star : Glob.fnmatch "sub-01/anat/a.nii" "*.nii" = true.
Proof. reflexivity. Qed.
Example fnmatch_class : Glob.fnmatch "run-2" "run-[1-3]" = true.
Proof. reflexivity. Qed.
Example fnmatch_negclass : Glob.fnmatch "run-2" "run-[!1-3]" = false.
Proof. reflexivity. Qed.
Example fnmatch_empty_range : Glob.fnmatch "b" "[z-a]" = false.
Proof. reflexivity. Qed.
Example fnmatch_open_bracket : Glob.fnmatch "[ab" "[ab" = true.
Proof. reflexivity. Qed.
Example fnmatch_question : Glob.fnmatch "README" "READM?" = true.
Proof. reflexivity. Qed.


(** ** The selection loop *)
Module SelectProofs.
Import Select.

Lemma existsb_map_id {A} (f : A -> bool) (l : list A) :
  existsb id (map f l) = existsb f l.
Proof. induction l as [|x l IH]; simpl; [reflexivity|now rewrite IH]. Qed.

Lemma select_step_files include exclude st file :
  sel_files (select_step include exclude st file)
  = sel_files st ++ (if keep_pred include exclude file then [file] else []).
Proof.
  unfold select_step, keep_pred.
  rewrite !existsb_map_id.
  destruct (is_essential (filename file)); simpl; [reflexivity|].
  destruct (_ && _); simpl; [reflexivity|now rewrite app_nil_r].
Qed.

Lemma select_loop_files_gen include exclude es st :
  sel_files (fold_left (select_step include exclude) es st)
  = sel_files st ++ filter (keep_pred include exclude) es.
Proof.
  revert st; induction es as [|e es IH]; intros st; simpl.
  - now rewrite app_nil_r.
  - rewrite IH, select_step_files, <- app_assoc.
    destruct (keep_pred include exclude e); reflexivity.
Qed.

Lemma select_loop_files include exclude es :
  sel_files (select_loop include exclude es) = filter (keep_pred include exclude) es.
Proof. unfold select_loop. now rewrite select_loop_files_gen. Qed.

Lemma existsb_matches_iff fname pats :
  existsb (pattern_matches fname) pats = true <->
  exists p, In p pats /\ (String.prefix p fname = true \/ Glob.fnmatch fname p = true).
Proof.
  rewrite existsb_exists. unfold pattern_matches.
  split; intros [p [Hin Hm]]; exists p; split; auto.
  - now apply orb_true_iff.
  - now apply orb_true_iff.
Qed.

Lemma incr_at_length i c : length (incr_at i c) = length c.
Proof. revert i; induction c as [|x c IH]; intros [|i]; simpl; auto. Qed.

Lemma nth_incr_at i j c :
  j < length c -> nth i (incr_at j c) 0 = nth i c 0 + (if Nat.eqb j i then 1 else 0).
Proof.
  revert i j; induction c as [|x c IH]; intros i j Hj; simpl in *; [lia|].
  destruct j as [|j], i as [|i]; simpl; try lia.
  rewrite IH by lia. reflexivity.
Qed.

Lemma py_index_lt {A} (eqb : A -> A -> bool) x l i :
  py_index eqb x l = Some i -> i < length l.
Proof.
  revert i; induction l as [|y l IH]; intros i H; simpl in *; [discriminate|].
  destruct (eqb x y); [injection H; intros; subst; lia|].
  destruct (py_index eqb x l) eqn:E; simpl in H; [|discriminate].
  injection H; intros; subst. specialize (IH n eq_refl). lia.
Qed.

Lemma py_index_none {A} (eqb : A -> A -> bool) x l :
  py_index eqb x l = None <-> existsb (eqb x) l = false.
Proof.
  induction l as [|y l IH]; simpl; [tauto|].
  destruct (eqb x y); simpl; [split; discriminate|].
  rewrite <- IH. destruct (py_index eqb x l); simpl; split; congruence.
Qed.

Lemma py_index_spec {A} (eqb : A -> A -> bool) x l i d :
  py_index eqb x l = Some i ->
  eqb x (nth i l d) = true /\ (forall j, j < i -> eqb x (nth j l d) = false).
Proof.
  revert i; induction l as [|y l IH]; intros i H; simpl in *; [discriminate|].
  destruct (eqb x y) eqn:Exy.
  - injection H; intros; subst. split; [exact Exy|intros; lia].
  - destruct (py_index eqb x l) eqn:E; simpl in H; [|discriminate].
    injection H; intros; subst. destruct (IH n eq_refl) as [H1 H2].
    split; [exact H1|]. intros [|j] Hj; [exact Exy|apply H2; lia].
Qed.

Lemma py_index_of_spec {A} (eqb : A -> A -> bool) x l i d :
  i < length l -> eqb x (nth i l d) = true -> (forall j, j < i -> eqb x (nth j l d) = false) ->
  py_index eqb x l = Some i.
Proof.
  revert i; induction l as [|y l IH]; intros i Hi H1 H2; simpl in *; [lia|].
  destruct i as [|i].
  - now rewrite H1.
  - rewrite (H2 0 ltac:(lia)). rewrite (IH i); auto; [lia|].
    intros j Hj. apply (H2 (S j)). lia.
Qed.

Lemma existsb_bool_eqb_true l : existsb (Bool.eqb true) l = existsb id l.
Proof. induction l as [|b l IH]; simpl; [reflexivity|]. now destruct b. Qed.

Lemma select_step_counts_length include exclude st file :
  length (sel_counts (select_step include exclude st file)) = length (sel_counts st).
Proof.
  unfold select_step.
  destruct (is_essential _); simpl.
  - destruct (existsb _ _); [destruct (py_index _ _ _)|]; simpl; auto using incr_at_length.
  - destruct (_ && _); simpl; auto.
    destruct (existsb _ _); [destruct (py_index _ _ _)|]; simpl; auto using incr_at_length.
Qed.

Lemma select_step_counts include exclude st file i :
  length (sel_counts st) = length include ->
  nth i (sel_counts (select_step include exclude st file)) 0
  = nth i (sel_counts st) 0 + (if credited include exclude i file then 1 else 0).
Proof.
  intros Hlen. unfold select_step, credited, keep_pred.
  rewrite !existsb_map_id.
  destruct (is_essential (filename file)); simpl.
  - destruct (existsb (String.eqb (filename file)) include) eqn:E.
    + destruct (py_index String.eqb (filename file) include) as [j|] eqn:Ej.
      * apply py_index_lt in Ej. rewrite nth_incr_at by lia. reflexivity.
      * apply py_index_none in Ej. congruence.
    + apply py_index_none in E. rewrite E. lia.
  - destruct (_ && _) eqn:Ek; simpl.
    +
      destruct (existsb (pattern_matches (filename file)) include) eqn:E.
      * destruct (py_index Bool.eqb true (map (pattern_matches (filename file)) include)) as [j|] eqn:Ej.
        -- apply py_index_lt in Ej. rewrite length_map in Ej.
           rewrite nth_incr_at by lia. reflexivity.
        -- apply py_index_none in Ej. rewrite existsb_bool_eqb_true, existsb_map_id in Ej. congruence.
      * assert (Hn : py_index Bool.eqb true (map (pattern_matches (filename file)) include) = None)
          by (apply py_index_none; now rewrite existsb_bool_eqb_true, existsb_map_id).
        rewrite Hn. lia.
    + lia.
Qed.

Lemma select_fold_counts include exclude i es st :
  length (sel_counts st) = length include ->
  nth i (sel_counts (fold_left (select_step include exclude) es st)) 0
  = nth i (sel_counts st) 0 + count_credited include exclude i es.
Proof.
  unfold count_credited.
  revert st; induction es as [|e es IH]; intros st Hlen; simpl; [lia|].
  rewrite IH.
  - rewrite select_step_counts by exact Hlen.
    destruct (credited include exclude i e); simpl; lia.
  - now rewrite select_step_counts_length.
Qed.

Lemma select_fold_counts_length include exclude es st :
  length (sel_counts (fold_left (select_step include exclude) es st)) = length (sel_counts st).
Proof.
  revert st; induction es as [|e es IH]; intros st; simpl; [reflexivity|].
  now rewrite IH, select_step_counts_length.
Qed.

(** The include counts of the loop: pattern [i] is counted once per
    file credited to it. *)
Lemma select_loop_counts include exclude es i :
  nth i (sel_counts (select_loop include exclude es)) 0 = count_credited include exclude i es.
Proof.
  unfold select_loop. rewrite select_fold_counts.
  - simpl. now rewrite nth_repeat.
  - simpl. now rewrite repeat_length.
Qed.

Lemma select_loop_counts_length include exclude es :
  length (sel_counts (select_loop include exclude es)) = length include.
Proof.
  unfold select_loop. rewrite select_fold_counts_length. simpl. apply repeat_length.
Qed.

Lemma select_fold_filenames include exclude es st :
  sel_filenames (fold_left (select_step include exclude) es st) = sel_filenames st ++ map filename es.
Proof.
  revert st; induction es as [|e es IH]; intros st; simpl; [now rewrite app_nil_r|].
  rewrite IH. unfold select_step.
  destruct (is_essential _); [|destruct (_ && _)]; simpl; now rewrite <- app_assoc.
Qed.

Lemma select_loop_filenames include exclude es :
  sel_filenames (select_loop include exclude es) = map filename es.
Proof. unfold select_loop. now rewrite select_fold_filenames. Qed.

Lemma first_zero_none k c :
  first_zero k c = None <-> (forall i, i < length c -> nth i c 0 <> 0).
Proof.
  revert k; induction c as [|x c IH]; intros k; simpl.
  - split; [intros _ i Hi; lia|reflexivity].
  - destruct x as [|x].
    + split; [discriminate|]. intros H. exfalso. apply (H 0); [lia|reflexivity].
    + rewrite IH. split.
      * intros H [|i] Hi; [discriminate|apply H; lia].
      * intros H i Hi. apply (H (S i)). lia.
Qed.

Lemma first_zero_some k c idx :
  first_zero k c = Some idx ->
  k <= idx /\ idx - k < length c /\ nth (idx - k) c 0 = 0 /\
  (forall j, j < idx - k -> nth j c 0 <> 0).
Proof.
  revert k; induction c as [|x c IH]; intros k H; simpl in *; [discriminate|].
  destruct x as [|x].
  - injection H; intros; subst. rewrite Nat.sub_diag.
    split; [lia|]. split; [simpl; lia|]. split; [reflexivity|intros; lia].
  - destruct (IH (S k) H) as [H1 [H2 [H3 H4]]].
    replace (idx - k) with (S (idx - S k)) by lia.
    split; [lia|]. split; [simpl; lia|]. split; [exact H3|].
    intros [|j] Hj; [discriminate|apply H4; lia].
Qed.

(** C1: for a path that is not one of the five essential names, the
    selection loop keeps it exactly when (the include list is empty or
    some include pattern matches it) and no exclude pattern matches it,
    a pattern matching when the path starts with it or matches it as an
    [fnmatch] glob. *)
Theorem filter_keeps_iff (include exclude : list string) (es : list entity) (f : entity)
  (Hne : is_essential (filename f) = false) :
  In f (sel_files (select_loop include exclude es)) <->
  In f es /\
  ((include = [] \/
    exists p, In p include /\ (String.prefix p (filename f) = true \/ Glob.fnmatch (filename f) p = true))
   /\ ~ (exists p, In p exclude /\ (String.prefix p (filename f) = true \/ Glob.fnmatch (filename f) p = true))).
Proof.
  rewrite select_loop_files, filter_In.
  unfold keep_pred; rewrite Hne; simpl.
  rewrite andb_true_iff, orb_true_iff, negb_true_iff.
  assert (Hnil : (match include with [] => true | _ => false end = true) <-> include = [])
    by (destruct include; split; congruence).
  rewrite Hnil, existsb_matches_iff.
  rewrite <- not_true_iff_false, existsb_matches_iff.
  tauto.
Qed.

Lemma is_essential_iff f : is_essential f = true <-> In f essential_files.
Proof.
  unfold is_essential. rewrite existsb_exists. split.
  - intros [x [Hin Hx]]. apply String.eqb_eq in Hx. now subst.
  - intros Hin. exists f. split; [exact Hin|apply String.eqb_refl].
Qed.

Lemma keep_pred_essential include exclude f :
  is_essential (filename f) = true -> keep_pred include exclude f = true.
Proof. unfold keep_pred. now intros ->. Qed.

Lemma select_inr_files gcm include exclude es files :
  select gcm include exclude es = inr files -> files = sel_files (select_loop include exclude es).
Proof.
  unfold select. destruct include; [congruence|].
  destruct (first_zero _ _); congruence.
Qed.

(** C5: each of the five essential names met during the traversal is
    selected, whatever the include and exclude lists are. *)
Theorem essential_always_selected (include exclude : list string) (es : list entity) (f : entity)
  (Hin : In f es)
  (Hess : In (filename f)
            ["dataset_description.json"; "participants.tsv"; "participants.json"; "README"; "CHANGES"]) :
  In f (sel_files (select_loop include exclude es)) /\
  (forall gcm files, select gcm include exclude es = inr files -> In f files).
Proof.
  assert (Hsel : In f (sel_files (select_loop include exclude es))).
  { rewrite select_loop_files, filter_In. split; [exact Hin|].
    apply keep_pred_essential, is_essential_iff, Hess. }
  split; [exact Hsel|].
  intros gcm files H. apply select_inr_files in H. now subst.
Qed.

Lemma py_index_string_iff x l i :
  py_index String.eqb x l = Some i <->
  nth_error l i = Some x /\ (forall j, j < i -> nth_error l j <> Some x).
Proof.
  split.
  - intros H. pose proof (py_index_lt _ _ _ _ H) as Hlt.
    destruct (py_index_spec _ _ _ _ "" H) as [H1 H2].
    apply String.eqb_eq in H1. split.
    + rewrite (nth_error_nth' l "" Hlt). now f_equal.
    + intros j Hj He. specialize (H2 j Hj).
      rewrite (nth_error_nth' l "") in He by lia. injection He as He.
      rewrite He, String.eqb_refl in H2. discriminate.
  - intros [H1 H2]. assert (Hlt : i < length l) by (apply nth_error_Some; congruence).
    apply (py_index_of_spec _ _ _ _ ""); [exact Hlt| |].
    + rewrite (nth_error_nth' l "" Hlt) in H1. injection H1 as H1. rewrite H1. apply String.eqb_refl.
    + intros j Hj. apply String.eqb_neq. intros He. apply (H2 j Hj).
      rewrite (nth_error_nth' l "") by lia. now f_equal.
Qed.

(** How the code credits essential files: an essential file adds one to the count
    of include pattern [i] exactly when pattern [i] is the first one
    equal to the file name; a pattern that reaches the essential file
    only by prefix or glob gets nothing from it. *)
Theorem essential_credit_exact (include exclude : list string) (st : sel_state) (f : entity) (i : nat)
  (Hess : is_essential (filename f) = true)
  (Hlen : length (sel_counts st) = length include) :
  ((nth_error include i = Some (filename f) /\
    (forall j, j < i -> nth_error include j <> Some (filename f))) ->
   nth i (sel_counts (select_step include exclude st f)) 0 = S (nth i (sel_counts st) 0)) /\
  (~ (nth_error include i = Some (filename f) /\
      (forall j, j < i -> nth_error include j <> Some (filename f))) ->
   nth i (sel_counts (select_step include exclude st f)) 0 = nth i (sel_counts st) 0).
Proof.
  rewrite select_step_counts by exact Hlen.
  unfold credited. rewrite Hess.
  split; intros H.
  - apply py_index_string_iff in H. rewrite H, Nat.eqb_refl. lia.
  - destruct (py_index String.eqb (filename f) include) as [j|] eqn:E; [|lia].
    destruct (Nat.eqb_spec j i); [|lia]. subst j.
    apply py_index_string_iff in E. contradiction.
Qed.

Lemma filter_length_nonzero {A} (p : A -> bool) l :
  length (filter p l) <> 0 <-> exists x, In x l /\ p x = true.
Proof.
  split.
  - intros H. destruct (filter p l) as [|x r] eqn:E; [simpl in H; lia|].
    exists x. apply filter_In. rewrite E. now left.
  - intros [x Hx]. apply filter_In in Hx. destruct (filter p l); [contradiction|simpl; lia].
Qed.

Lemma string_prefix_refl s : String.prefix s s = true.
Proof. induction s as [|c s IH]; simpl; [reflexivity|]. destruct (ascii_dec c c); congruence. Qed.

(** A pattern that matches no discovered path is credited nothing. *)
Lemma unmatched_pattern_not_credited include exclude es i :
  i < length include ->
  (forall f, In f es -> pattern_matches (filename f) (nth i include "") = false) ->
  count_credited include exclude i es = 0.
Proof.
  intros Hi Hnm. unfold count_credited.
  destruct (length (filter _ _)) eqn:E; [reflexivity|exfalso].
  assert (Hx : length (filter (credited include exclude i) es) <> 0) by lia.
  apply filter_length_nonzero in Hx. destruct Hx as [f [Hf Hc]].
  specialize (Hnm f Hf). unfold credited in Hc.
  destruct (is_essential (filename f)).
  - destruct (py_index String.eqb (filename f) include) as [j|] eqn:Ej; [|discriminate].
    apply Nat.eqb_eq in Hc. subst j.
    destruct (py_index_spec _ _ _ _ "" Ej) as [H1 _]. apply String.eqb_eq in H1.
    rewrite <- H1 in Hnm. unfold pattern_matches in Hnm.
    rewrite string_prefix_refl in Hnm. discriminate.
  - apply andb_true_iff in Hc. destruct Hc as [_ Hc].
    destruct (py_index Bool.eqb true (map (pattern_matches (filename f)) include)) as [j|] eqn:Ej;
      [|discriminate].
    apply Nat.eqb_eq in Hc. subst j.
    destruct (py_index_spec _ _ _ _ false Ej) as [H1 _].
    rewrite (nth_indep _ false (pattern_matches (filename f) "")) in H1
      by (rewrite length_map; exact Hi).
    rewrite map_nth in H1. rewrite Hnm in H1. discriminate.
Qed.

(** The include check of [select]: it passes exactly when every include
    pattern was credited at least once; a pattern matching no
    discovered path makes it fail, naming the first uncredited pattern
    with the close matches among all discovered names. *)
Lemma include_check_select gcm include exclude es :
  include <> [] ->
  (select gcm include exclude es = inr (sel_files (select_loop include exclude es)) <->
   (forall i, i < length include -> exists f, In f es /\ credited include exclude i f = true))
  /\ ((exists p, In p include /\ forall f, In f es -> pattern_matches (filename f) p = false) ->
      exists idx, idx < length include /\
        select gcm include exclude es
        = inl (IncludeNotFound (nth idx include "") (gcm (nth idx include "") (map filename es)))
        /\ count_credited include exclude idx es = 0
        /\ (forall j, j < idx -> count_credited include exclude j es <> 0)).
Proof.
  intros Hne.
  assert (Hsel : select gcm include exclude es =
     match first_zero 0 (sel_counts (select_loop include exclude es)) with
     | Some idx => inl (IncludeNotFound (nth idx include "")
                      (gcm (nth idx include "") (map filename es)))
     | None => inr (sel_files (select_loop include exclude es))
     end).
  { unfold select. rewrite <- (select_loop_filenames include exclude es).
    destruct include; [congruence|reflexivity]. }
  assert (Hall : first_zero 0 (sel_counts (select_loop include exclude es)) = None <->
                 (forall i, i < length include -> exists f, In f es /\ credited include exclude i f = true)).
  { rewrite first_zero_none, select_loop_counts_length. split.
    - intros H i Hi. apply filter_length_nonzero. specialize (H i Hi).
      now rewrite select_loop_counts in H.
    - intros H i Hi. rewrite select_loop_counts. apply filter_length_nonzero, H, Hi. }
  split.
  - rewrite Hsel, <- Hall.
    destruct (first_zero _ _); split; congruence.
  - intros [p [Hp Hnm]].
    destruct (In_nth include p "" Hp) as [i [Hi Hpi]].
    assert (H0 : count_credited include exclude i es = 0)
      by (apply unmatched_pattern_not_credited; [exact Hi|now rewrite Hpi]).
    destruct (first_zero 0 (sel_counts (select_loop include exclude es))) as [idx|] eqn:Ez.
    + pose proof (first_zero_some _ _ _ Ez) as Ez'.
      rewrite Nat.sub_0_r, (select_loop_counts_length include exclude es) in Ez'.
      destruct Ez' as [_ [H1 [H2 H3]]].
      exists idx. split; [exact H1|]. split; [rewrite Hsel; reflexivity|].
      rewrite <- select_loop_counts. split; [exact H2|].
      intros j Hj. rewrite <- select_loop_counts. apply H3. exact Hj.
    + exfalso. destruct (proj1 Hall eq_refl i Hi) as [f Hf].
      assert (Hx : count_credited include exclude i es <> 0)
        by (apply filter_length_nonzero; now exists f).
      contradiction.
Qed.

End SelectProofs.

(** ** The directory walker *)
Module WalkProofs.
Import Walk.

Lemma walk_dir_eq root e kids :
  walk_dir root (Node e kids) = iterate_filenames (child_path root (filename e)) kids.
Proof.
  simpl. unfold iterate_filenames. f_equal.
  induction kids as [|k l IH]; simpl; [reflexivity|]. now rewrite IH.
Qed.

Lemma iterate_filenames_unfold root ts :
  iterate_filenames root ts =
  yield_files root ts ++
  concat (map (fun t => if directory (node_entity t)
                        then iterate_filenames (child_path root (filename (node_entity t))) (node_kids t)
                        else []) ts).
Proof.
  unfold iterate_filenames at 1. f_equal. f_equal.
  apply map_ext. intros [e kids]. simpl node_entity. simpl node_kids.
  destruct (directory e); [apply walk_dir_eq|reflexivity].
Qed.

Lemma yield_files_not_dir root ts : Forall (fun e => directory e = false) (yield_files root ts).
Proof.
  apply Forall_forall. unfold yield_files. intros x Hx.
  apply in_map_iff in Hx. destruct Hx as [e [<- He]].
  apply filter_In in He. destruct He as [_ He]. simpl. now apply negb_true_iff.
Qed.

Lemma walk_dir_not_dir t : forall root, Forall (fun e => directory e = false) (walk_dir root t).
Proof.
  induction t as [e kids IH] using tree_rect'. intros root.
  rewrite walk_dir_eq. unfold iterate_filenames.
  apply Forall_app. split; [apply yield_files_not_dir|].
  induction IH as [|k l Hk Hl IHl]; simpl; [constructor|].
  apply Forall_app. split; [|exact IHl].
  destruct (directory (node_entity k)); [apply Hk|constructor].
Qed.

(** C9: the walker yields, for one listing, its file entries in the
    order received (children of the dataset root with their bare name,
    children of a directory at path [p] as [p/name]) before the
    contents of its subdirectories, each subdirectory expanded under its
    own path, in listing order; and it yields file entries only. *)
Theorem iterate_filenames_shape :
  (forall ts,
     iterate_filenames "" ts =
     filter (fun e => negb (directory e)) (map node_entity ts) ++
     concat (map (fun t => if directory (node_entity t)
                           then iterate_filenames (filename (node_entity t)) (node_kids t)
                           else []) ts)) /\
  (forall p ts, p <> "" ->
     iterate_filenames p ts =
     map (fun e => mk_entity (p ++ "/" ++ filename e)%string (directory e) (ent_id e) (size e) (urls e))
         (filter (fun e => negb (directory e)) (map node_entity ts)) ++
     concat (map (fun t => if directory (node_entity t)
                           then iterate_filenames (p ++ "/" ++ filename (node_entity t))%string (node_kids t)
                           else []) ts)) /\
  (forall p ts, Forall (fun e => directory e = false) (iterate_filenames p ts)).
Proof.
  split; [|split].
  - intros ts. rewrite iterate_filenames_unfold. f_equal.
    unfold yield_files. rewrite <- (map_id (filter _ _)) at 2.
    apply map_ext. intros [n d i sz u]. reflexivity.
  - intros p ts Hp. rewrite iterate_filenames_unfold.
    assert (Hc : forall n, child_path p n = (p ++ "/" ++ n)%string) by (destruct p; [congruence|reflexivity]).
    unfold yield_files, rename. f_equal.
    + apply map_ext. intros e. now rewrite Hc.
    + f_equal. apply map_ext. intros t. now rewrite Hc.
  - intros p ts. unfold iterate_filenames.
    apply Forall_app. split; [apply yield_files_not_dir|].
    induction ts as [|t ts IH]; simpl; [constructor|].
    apply Forall_app. split; [|exact IH].
    destruct (directory (node_entity t)); [apply walk_dir_not_dir|constructor].
Qed.

End WalkProofs.

(** ** One file download *)
Module FileDlProofs.
Import FileDl.

Lemma prefix_append_substring c s :
  String.prefix c s = true ->
  (c ++ substring (String.length c) (String.length s - String.length c) s)%string = s.
Proof.
  revert s; induction c as [|a c IH]; intros s H; simpl.
  - rewrite Nat.sub_0_r. clear. induction s as [|b s IHs]; simpl; [reflexivity|now rewrite IHs].
  - destruct s as [|b s]; [discriminate|]. simpl in H.
    destruct (ascii_dec a b) as [->|]; [|discriminate]. simpl. now rewrite IH.
Qed.

(** C3: when the local file exists with the size the server reports,
    it is skipped with only the HEAD request sent, unless hash checking
    is on, an MD5 etag is available and the local digest differs; then
    the file is unlinked and fetched whole in ['wb'] mode with no
    [Range] header. *)
Theorem equal_size_skip_or_refetch (md5 : string -> string) (verify_hash verify_size : bool)
  (url : string) (c : string) (rf : remote_file)
  (Hsize : rf_content_length rf = Some (String.length c)) :
  ((verify_hash = false \/ etag_hash (rf_etag rf) = None \/ etag_hash (rf_etag rf) = Some (md5 c)) ->
   download_file_attempt md5 verify_hash verify_size url (Some c) rf = ([HEAD url], Some c, Skipped)) /\
  (forall h, verify_hash = true -> etag_hash (rf_etag rf) = Some h -> md5 c <> h ->
   plan_download md5 verify_hash (Some c) (rf_content_length rf) (etag_hash (rf_etag rf))
   = PFetch WB None true 0 /\
   exists o, download_file_attempt md5 verify_hash verify_size url (Some c) rf
             = ([HEAD url; GET url [("Accept-Encoding", "")]], Some (rf_content rf), o)).
Proof.
  split.
  - intros Hcase. unfold download_file_attempt, plan_download. rewrite Hsize, Nat.eqb_refl.
    destruct Hcase as [-> | [-> | ->]]; simpl; [reflexivity|now destruct verify_hash|].
    rewrite String.eqb_refl. now destruct verify_hash.
  - intros h Hv He Hne.
    assert (Hp : plan_download md5 verify_hash (Some c) (rf_content_length rf) (etag_hash (rf_etag rf))
                 = PFetch WB None true 0).
    { unfold plan_download. rewrite Hsize, Nat.eqb_refl, Hv, He. simpl.
      apply String.eqb_neq in Hne. now rewrite Hne. }
    split; [exact Hp|].
    unfold download_file_attempt. rewrite Hp. simpl.
    destruct (_ && _); [eexists; reflexivity|]. destruct (_ && _); eexists; reflexivity.
Qed.

(** C4: when the local file exists and is shorter than the size the
    server reports, the GET carries [Range: bytes=<local size>-], the
    file is opened in ['ab'] mode, and the bytes received are the
    server content from the local size on, appended to the local file;
    when the local file is a prefix of the remote content the result is
    exactly the remote content. *)
Theorem shorter_local_resumes (md5 : string -> string) (verify_hash verify_size : bool)
  (url : string) (c : string) (rf : remote_file) (n : nat)
  (Hn : rf_content_length rf = Some n) (Hlt : String.length c < n) :
  plan_download md5 verify_hash (Some c) (rf_content_length rf) (etag_hash (rf_etag rf))
  = PFetch AB (Some (String.length c)) false (String.length c) /\
  fst (fst (download_file_attempt md5 verify_hash verify_size url (Some c) rf))
  = [HEAD url; GET url [("Accept-Encoding", ""); ("Range", ("bytes=" ++ dec (String.length c) ++ "-")%string)]] /\
  (String.length c < String.length (rf_content rf) ->
   serve rf (Some (String.length c))
   = inr (substring (String.length c) (String.length (rf_content rf) - String.length c) (rf_content rf)) /\
   snd (fst (download_file_attempt md5 verify_hash verify_size url (Some c) rf))
   = Some (c ++ substring (String.length c) (String.length (rf_content rf) - String.length c)
                          (rf_content rf))%string /\
   (String.prefix c (rf_content rf) = true ->
    snd (fst (download_file_attempt md5 verify_hash verify_size url (Some c) rf)) = Some (rf_content rf))).
Proof.
  assert (Hp : plan_download md5 verify_hash (Some c) (rf_content_length rf) (etag_hash (rf_etag rf))
               = PFetch AB (Some (String.length c)) false (String.length c)).
  { unfold plan_download. rewrite Hn.
    destruct (Nat.eqb_spec (String.length c) n); [lia|].
    destruct (Nat.ltb_spec (String.length c) n); [reflexivity|lia]. }
  split; [exact Hp|]. split.
  - unfold download_file_attempt. rewrite Hp.
    destruct (serve rf _); [reflexivity|].
    destruct (_ && _); [reflexivity|]. destruct (_ && _); reflexivity.
  - intros Hc.
    assert (Hs : serve rf (Some (String.length c))
                 = inr (substring (String.length c) (String.length (rf_content rf) - String.length c)
                                  (rf_content rf))).
    { unfold serve. destruct (Nat.ltb_spec (String.length c) (String.length (rf_content rf)));
        [reflexivity|lia]. }
    assert (Hf : snd (fst (download_file_attempt md5 verify_hash verify_size url (Some c) rf))
                 = Some (c ++ substring (String.length c) (String.length (rf_content rf) - String.length c)
                                        (rf_content rf))%string).
    { unfold download_file_attempt. rewrite Hp, Hs. simpl.
      destruct (_ && _); [reflexivity|]. destruct (_ && _); reflexivity. }
    split; [exact Hs|]. split; [exact Hf|].
    intros Hpre. rewrite Hf. f_equal. now apply prefix_append_substring.
Qed.

End FileDlProofs.

(** ** The local revision probe and the orchestrator *)
Module SyncProofs.
Import Select Walk FileDl Probe Sync Samples.

Lemma download_on_check md5 gcm server dl dataset meta target include exclude vh vs :
  download md5 gcm server dl dataset meta target include exclude vh vs =
  match revision_check dl dataset (effective_tag dataset meta) target with
  | inl e => (inl e, target, [])
  | inr w => (fst (proceed md5 gcm server dataset meta target include exclude vh vs),
              snd (proceed md5 gcm server dataset meta target include exclude vh vs), w)
  end.
Proof.
  unfold download. destruct (revision_check _ _ _ _); [reflexivity|].
  destruct (proceed _ _ _ _ _ _ _ _ _ _); reflexivity.
Qed.

Lemma probe_local_file dl dataset target r :
  get_local_tag dl dataset (lookup (ld_files target) "dataset_description.json") = inr (Some r) ->
  probe_local dl dataset target = inr (Some r).
Proof.
  unfold probe_local. destruct (lookup _ _) as [txt|]; [auto|discriminate].
Qed.

Lemma proceed_select_error md5 gcm server dataset meta target include exclude vh vs e :
  select gcm include exclude (iterate_filenames "" (md_files meta)) = inl e ->
  proceed md5 gcm server dataset meta target include exclude vh vs = (inl (ESelect e), target).
Proof. unfold proceed. now intros ->. Qed.

(** C8: into an existing, non-empty target whose manifest records a
    revision other than the one requested, [download] fails with the
    revision conflict and returns the target directory as it was. *)
Theorem revision_conflict_untouched (md5 : string -> string)
  (gcm : string -> list string -> list string) (server : string -> remote_file)
  (depth_limit : nat)
  (dataset : string) (meta : metadata) (target : local_dir)
  (include exclude : list string) (verify_hash verify_size : bool) (local_tag : string)
  (Hex : ld_exists target = true) (Hne : dir_empty target = false)
  (Hloc : get_local_tag depth_limit dataset (lookup (ld_files target) "dataset_description.json")
          = inr (Some local_tag))
  (Hdiff : local_tag <> effective_tag dataset meta) :
  download md5 gcm server depth_limit dataset meta target include exclude verify_hash verify_size
  = (inl (ERevisionConflict (effective_tag dataset meta) local_tag), target, []).
Proof.
  rewrite download_on_check. unfold revision_check.
  rewrite Hex, Hne. simpl. rewrite (probe_local_file _ _ _ _ Hloc).
  apply String.eqb_neq in Hdiff. now rewrite Hdiff.
Qed.

Lemma existsb_key_dict_get fs key :
  existsb (fun kv => String.eqb (fst kv) key) fs = false <-> Json.dict_get fs key = None.
Proof.
  induction fs as [|[k v] fs IH]; simpl; [tauto|].
  destruct (Json.dict_get fs key) eqn:E.
  - split; [|discriminate]. intros H. apply orb_false_iff in H. destruct H as [_ H].
    apply IH in H. discriminate.
  - destruct (String.eqb k key); simpl; split; try discriminate; auto.
    intros _. now apply IH.
Qed.





(** The include check as the code does it: with a non-empty include
    list, selection succeeds exactly when every include pattern is
    credited with some traversed path (an essential file credits only the
    first pattern equal to its name; any other path credits the first
    pattern matching it, and only if it is kept); a pattern that matches
    no traversed path at all makes selection fail naming the first
    pattern with no credit, with the suggestions [get_close_matches] draws
    from all traversed paths; and a selection error ends [download]
    before any file of the target is touched. *)
Theorem include_check_outcome (gcm : string -> list string -> list string)
  (include exclude : list string) (Hne : include <> []) :
  (forall es : list entity,
     (select gcm include exclude es = inr (sel_files (select_loop include exclude es)) <->
      (forall i, i < length include -> exists f, In f es /\ credited include exclude i f = true))
     /\ ((exists p, In p include /\ forall f, In f es -> pattern_matches (filename f) p = false) ->
         exists idx, idx < length include /\
           count_credited include exclude idx es = 0 /\
           (forall j, j < idx -> count_credited include exclude j es <> 0) /\
           select gcm include exclude es
           = inl (IncludeNotFound (nth idx include "") (gcm (nth idx include "") (map filename es))))) /\
  (forall (md5 : string -> string) (server : string -> remote_file) (dl : nat) (dataset : string)
          (meta : metadata) (target : local_dir) (vh vs : bool) (w : list string) (e : sel_error),
     revision_check dl dataset (effective_tag dataset meta) target = inr w ->
     select gcm include exclude (iterate_filenames "" (md_files meta)) = inl e ->
     download md5 gcm server dl dataset meta target include exclude vh vs = (inl (ESelect e), target, w)).
Proof.
  split.
  - intros es. destruct (SelectProofs.include_check_select gcm include exclude es Hne) as [H1 H2].
    split; [exact H1|]. intros Hp. destruct (H2 Hp) as [idx [Hi [Hs [Hz Hj]]]].
    exists idx. auto.
  - intros md5 server dl dataset meta target vh vs w e Hrc Hsel.
    rewrite download_on_check, Hrc.
    now rewrite (proceed_select_error md5 gcm server dataset meta target include exclude vh vs e Hsel).
Qed.

(** C7 fails: both include patterns [sub-01] and [sub-01/a.nii] match
    the dataset's path [sub-01/a.nii], but the path credits only the
    first pattern matching it ([matches_keep.index(True)]); the second
    keeps a count of zero and [download] stops with the error for it. *)
Lemma overlapping_patterns_fail :
  map filename (iterate_filenames "" (md_files MoreSamples.ex_meta2)) = ["README"; "sub-01/a.nii"] /\
  pattern_matches "sub-01/a.nii" "sub-01" = true /\
  pattern_matches "sub-01/a.nii" "sub-01/a.nii" = true /\
  forall (md5 : string -> string) (gcm : string -> list string -> list string)
         (server : string -> remote_file) (dl : nat),
    download md5 gcm server dl "ds1" MoreSamples.ex_meta2 MoreSamples.ex_local
      ["sub-01"; "sub-01/a.nii"] [] true true
    = (inl (ESelect (IncludeNotFound "sub-01/a.nii" (gcm "sub-01/a.nii" ["README"; "sub-01/a.nii"]))),
       MoreSamples.ex_local, [warn_unknown_revision]).
Proof.
  split; [reflexivity|]. split; [reflexivity|]. split; [reflexivity|].
  intros md5 gcm server dl. vm_compute. reflexivity.
Qed.

(** C6 fails: the glob [READ*] matches [README], yet an essential file
    credits only a pattern equal to its name, so [READ*] keeps a count of
    zero and [download] stops with the error for it. *)
Lemma essential_glob_not_credited :
  map filename (iterate_filenames "" (md_files MoreSamples.ex_meta2)) = ["README"; "sub-01/a.nii"] /\
  pattern_matches "README" "READ*" = true /\
  count_credited ["READ*"] [] 0 (iterate_filenames "" (md_files MoreSamples.ex_meta2)) = 0 /\
  forall (md5 : string -> string) (gcm : string -> list string -> list string)
         (server : string -> remote_file) (dl : nat),
    download md5 gcm server dl "ds1" MoreSamples.ex_meta2 MoreSamples.ex_local ["READ*"] [] true true
    = (inl (ESelect (IncludeNotFound "READ*" (gcm "READ*" ["README"; "sub-01/a.nii"]))),
       MoreSamples.ex_local, [warn_unknown_revision]).
Proof.
  split; [reflexivity|]. split; [reflexivity|]. split; [reflexivity|].
  intros md5 gcm server dl. vm_compute. reflexivity.
Qed.


(** Escapes beyond Latin-1 and surrogate pairs decode as [json] does:
    [\u0141] and [\ud83d\ude00] give the same text as the characters
    written out, and such a manifest yields its version; bytes that are
    not UTF-8 stop the probe with [UnicodeDecodeError]. *)
Lemma escaped_name_manifest :
  Json.loads 1000 (MoreSamples.ex_named_manifest "x" "\u0141")
  = Json.loads 1000 (MoreSamples.ex_named_manifest "x" (String (ascii_of_nat 197) (String (ascii_of_nat 129) ""))) /\
  Json.loads 1000 (MoreSamples.ex_named_manifest "x" "\ud83d\ude00")
  = Json.loads 1000 (MoreSamples.ex_named_manifest "x"
      (String (ascii_of_nat 240) (String (ascii_of_nat 159) (String (ascii_of_nat 152) (String (ascii_of_nat 128) ""))))) /\
  get_local_tag 1000 "ds000001"
    (Some (MoreSamples.ex_named_manifest "10.18112/openneuro.ds000001.v1.0.0" "\u0141"))
  = inr (Some "1.0.0") /\
  get_local_tag 1000 "ds000001"
    (Some (MoreSamples.ex_named_manifest "10.18112/openneuro.ds000001.v1.0.0" (String (ascii_of_nat 255) "")))
  = inl UnicodeDecodeErr.
Proof. vm_compute. repeat split. Qed.

End SyncProofs.

(** ** The concurrency limit *)
Module SemProofs.
Import Sem Samples.

(** C2 fails: with one slot, the first file holds it through its backoff
    sleep while the others wait in [acquire()]; the bare release in
    [_retry_download] then lets a second file in while the first is still
    inside its outer [async with]; and once the first file is done the
    counter has grown to 2, so the two other files hold slots and are on
    the wire at once. *)
Theorem retry_breaks_concurrency_limit :
  (match run [0; 0] ex_sem with
   | Some st => next_op 0 st = Some Sleep /\ in_flight st = 1 /\ step 1 st = None /\ step 2 st = None
   | None => False
   end) /\
  (match run [0; 0; 0; 0; 1] ex_sem with
   | Some st => in_flight st = 2
   | None => False
   end) /\
  (match run (repeat 0 11 ++ [1; 1; 2; 2]) ex_sem with
   | Some st => in_flight st = 2 /\ sem_value st = 0 /\
                next_op 0 st = None /\
                next_op 1 st = Some Exit /\ next_op 2 st = Some Exit
   | None => False
   end).
Proof. vm_compute. repeat split. Qed.

End SemProofs.

(** ** Metadata queries *)
Module MetaProofs.
Import Json Probe Meta.

Lemma check_snapshot_extends server m d t log :
  exists ext, fst (check_snapshot_exists server m d t log) = log ++ ext /\
              Forall (fun q => q = QAllSnapshots d) ext.
Proof.
  revert log. induction m as [|m IH]; intros log; simpl;
    destruct (server log (QAllSnapshots d)) as [|v].
  - exists [QAllSnapshots d]. split; [reflexivity|constructor; auto].
  - exists [QAllSnapshots d]. split; [|constructor; auto].
    repeat match goal with |- context [match ?x with _ => _ end] => destruct x end; reflexivity.
  - destruct (IH (log ++ [QAllSnapshots d])) as [ext [He Hf]].
    exists (QAllSnapshots d :: ext). rewrite He, <- app_assoc. split; [reflexivity|constructor; auto].
  - exists [QAllSnapshots d]. split; [|constructor; auto].
    repeat match goal with |- context [match ?x with _ => _ end] => destruct x end; reflexivity.
Qed.

Lemma filter_all_false {A} (p : A -> bool) l : Forall (fun x => p x = false) l -> filter p l = [].
Proof. induction 1; simpl; [reflexivity|]. now rewrite H. Qed.

Lemma gdm_step server m d tag cs log log1 :
  fst (pre_check server m d tag cs log) = log1 ->
  exists ext, log1 = log ++ ext /\ filter is_metadata_query ext = [] /\
              (tag = None -> ext = []).
Proof.
  intros H. unfold pre_check in H. destruct tag as [t|].
  - destruct cs.
    + destruct (check_snapshot_extends server m d t log) as [ext [He Hf]].
      exists ext. rewrite <- H, He. split; [reflexivity|]. split; [|discriminate].
      apply filter_all_false. eapply Forall_impl; [|exact Hf]. intros q ->. reflexivity.
    + exists []. subst. simpl. rewrite app_nil_r. auto.
  - exists []. subst. simpl. rewrite app_nil_r. auto.
Qed.

Ltac split_matches :=
  repeat match goal with |- context [match ?x with _ => _ end] => destruct x end.

Lemma metadata_query_counts d tag tree : is_metadata_query (metadata_query d tag tree) = true.
Proof. destruct tag; reflexivity. Qed.

(** [_get_download_metadata] only ever appends to the query log; it
    sends at most [max_retries + 1] metadata queries (the snapshot
    listing aside), and without a tag only the dataset query. *)
Theorem metadata_request_budget server m d tag cs : forall tree log,
  exists ext, fst (get_download_metadata server m d tag tree cs log) = log ++ ext /\
    length (filter is_metadata_query ext) <= S m /\
    (tag = None -> ext = repeat (QDataset d) (length ext)).
Proof.
  induction m as [|m IH]; intros tree log; cbn [get_download_metadata];
  destruct (pre_check server _ d tag cs log) as [log1 [e|u]] eqn:Hpre;
  destruct (gdm_step server _ d tag cs log log1 (f_equal fst Hpre)) as [ext1 [Hl1 [Hf1 Hn1]]];
  subst log1; unfold safe_query.
  1,3: exists ext1; simpl; rewrite Hf1; split; [reflexivity|split; [simpl; lia|intros Ht; now rewrite (Hn1 Ht)]].
  - exists (ext1 ++ [metadata_query d tag tree]). rewrite app_assoc.
    split; [split_matches; reflexivity|].
    rewrite filter_app, Hf1. simpl. rewrite metadata_query_counts. split; [simpl; lia|].
    intros Ht. rewrite (Hn1 Ht). subst tag. reflexivity.
  - destruct (match server (log ++ ext1) (metadata_query d tag tree) with
              | TimedOut => Some true | Answer v => gateway_timeout v end) as [[|]|] eqn:Ht.
    + destruct (IH "null" ((log ++ ext1) ++ [metadata_query d tag tree])) as [ext2 [He2 [Hf2 Hn2]]].
      exists (ext1 ++ [metadata_query d tag tree] ++ ext2).
      rewrite He2, !app_assoc. split; [reflexivity|].
      rewrite !filter_app, Hf1. simpl. rewrite metadata_query_counts. split; [simpl; lia|].
      intros Htag. rewrite (Hn1 Htag), (Hn2 Htag). subst tag. simpl. now rewrite repeat_length.
    + exists (ext1 ++ [metadata_query d tag tree]). rewrite app_assoc.
      split; [split_matches; reflexivity|].
      rewrite filter_app, Hf1. simpl. rewrite metadata_query_counts. split; [simpl; lia|].
      intros Htag. rewrite (Hn1 Htag). subst tag. reflexivity.
    + exists (ext1 ++ [metadata_query d tag tree]). rewrite app_assoc.
      split; [reflexivity|].
      rewrite filter_app, Hf1. simpl. rewrite metadata_query_counts. split; [simpl; lia|].
      intros Htag. rewrite (Hn1 Htag). subst tag. reflexivity.
Qed.

Lemma gateway_no_errors v : py_contains v "errors" = inr false -> gateway_timeout v = Some false.
Proof.
  intros H. destruct v; try discriminate H; unfold gateway_timeout; rewrite H; reflexivity.
Qed.

Lemma gateway_errors v : py_contains v "errors" = inr true ->
  gateway_timeout v = match error_message v with
                      | Some (JStr m) => Some (String.prefix "504" m) | _ => None end.
Proof.
  intros H. destruct v; try discriminate H; unfold gateway_timeout, error_message;
    rewrite H; repeat match goal with |- context [match ?x with _ => _ end] => destruct x end; reflexivity.
Qed.

Lemma gdm_log_extends server m d tag cs : forall tree log,
  exists ext, fst (get_download_metadata server m d tag tree cs log) = log ++ ext.
Proof.
  induction m as [|m IH]; intros tree log; cbn [get_download_metadata];
  destruct (pre_check server _ d tag cs log) as [log1 [e|u]] eqn:Hpre;
  destruct (gdm_step server _ d tag cs log log1 (f_equal fst Hpre)) as [ext1 [Hl1 _]];
  subst log1; unfold safe_query.
  1,3: now exists ext1.
  - exists (ext1 ++ [metadata_query d tag tree]). rewrite app_assoc. split_matches; reflexivity.
  - destruct (match server (log ++ ext1) (metadata_query d tag tree) with
              | TimedOut => Some true | Answer v => gateway_timeout v end) as [[|]|].
    + destruct (IH "null" ((log ++ ext1) ++ [metadata_query d tag tree])) as [ext2 He2].
      exists (ext1 ++ [metadata_query d tag tree] ++ ext2). now rewrite He2, !app_assoc.
    + exists (ext1 ++ [metadata_query d tag tree]). rewrite app_assoc. split_matches; reflexivity.
    + exists (ext1 ++ [metadata_query d tag tree]). now rewrite app_assoc.
Qed.

(** When the snapshot query times out and retries are left, the retry
    sends the query again with [tree] set to ['null'] instead of the
    requested tree, and its answer is what is returned. *)
Theorem listing_retry_asks_root server m d t tree log v root
  (Hto : server log (QSnapshot d t tree) = TimedOut)
  (Hans : server (log ++ [QSnapshot d t tree]) (QSnapshot d t "null") = Answer v)
  (Hok : py_contains v "errors" = inr false)
  (Hroot : getpath v ["data"; "snapshot"] = Some root) :
  get_download_metadata server (S m) d (Some t) tree false log
  = (log ++ [QSnapshot d t tree; QSnapshot d t "null"], inr root).
Proof.
  cbn [get_download_metadata]. unfold pre_check, safe_query, metadata_query.
  rewrite Hto. destruct m; cbn [get_download_metadata]; unfold pre_check, safe_query, metadata_query;
  rewrite Hans, (gateway_no_errors v Hok);
  destruct v; try discriminate Hok; cbv beta iota; rewrite Hok, Hroot; now rewrite <- app_assoc.
Qed.

(** A server that keeps timing out, or keeps answering with a 504
    error, gets [max_retries + 1] identical dataset queries, and the
    call raises the metadata timeout. *)
Theorem persistent_gateway_timeout server m d tree cs log
  (Hto : forall l, server l (QDataset d) = TimedOut \/
                   exists v, server l (QDataset d) = Answer v /\ gateway_timeout v = Some true) :
  get_download_metadata server m d None tree cs log = (log ++ repeat (QDataset d) (S m), inl MetadataTimeout).
Proof.
  revert tree log. induction m as [|m IH]; intros tree log; cbn [get_download_metadata];
    unfold pre_check, safe_query, metadata_query;
    (destruct (Hto log) as [H|[v [H Hg]]]; rewrite H; [|rewrite Hg]).
  1,2: reflexivity.
  all: rewrite IH; simpl; now rewrite <- app_assoc.
Qed.

(** An answer with [errors] whose first message does not start with
    ['504'] is not retried: the call fails at once with that message,
    after a single query. *)
Theorem query_error_not_retried server m d tag tree log v s
  (Hans : server log (metadata_query d tag tree) = Answer v)
  (He : py_contains v "errors" = inr true)
  (Hm : error_message v = Some (JStr s))
  (H504 : String.prefix "504" s = false) :
  get_download_metadata server m d tag tree false log
  = (log ++ [metadata_query d tag tree], inl (QueryFailed (JStr s))).
Proof.
  assert (Hg : gateway_timeout v = Some false) by (rewrite gateway_errors, Hm, H504; auto).
  destruct m; cbn [get_download_metadata]; unfold pre_check, safe_query;
  (destruct tag; [|]); rewrite Hans, Hg;
  destruct v; try discriminate He; cbv beta iota; rewrite He, Hm; reflexivity.
Qed.

Lemma existsb_eqb_in t tags : existsb (String.eqb t) tags = true <-> In t tags.
Proof.
  rewrite existsb_exists. split.
  - intros [x [Hx Hxe]]. apply String.eqb_eq in Hxe. now subst.
  - intros H. exists t. split; [exact H|apply String.eqb_refl].
Qed.

Lemma check_answered server m d t log v snapshots l tags
  (Hans : server log (QAllSnapshots d) = Answer v)
  (Hp : getpath v ["data"; "dataset"; "snapshots"] = Some snapshots)
  (Hi : py_iter snapshots = Some l) (Ht : tags_of d l = Some tags) :
  check_snapshot_exists server m d t log
  = (log ++ [QAllSnapshots d],
     if existsb (String.eqb t) tags then inr tt else inl (SnapshotMissing t tags)).
Proof.
  destruct m; cbn [check_snapshot_exists]; unfold safe_query; rewrite Hans;
  (change (getpath v ["data"; "dataset"; "snapshots"]) with (getpath v ["data"; "dataset"; "snapshots"]));
  rewrite Hp, Hi, Ht; destruct (existsb _ _); reflexivity.
Qed.

(** With snapshot checking on, the snapshot listing is queried first;
    a tag missing from it fails the call before any metadata query, and
    a tag present in it is followed by the snapshot query. *)
Theorem snapshot_check_gates_query server m d t tree log v snapshots l tags
  (Hans : server log (QAllSnapshots d) = Answer v)
  (Hp : getpath v ["data"; "dataset"; "snapshots"] = Some snapshots)
  (Hi : py_iter snapshots = Some l) (Ht : tags_of d l = Some tags) :
  (~ In t tags ->
   get_download_metadata server m d (Some t) tree true log
   = (log ++ [QAllSnapshots d], inl (SnapshotMissing t tags))) /\
  (In t tags ->
   exists rest, fst (get_download_metadata server m d (Some t) tree true log)
                = log ++ QAllSnapshots d :: QSnapshot d t tree :: rest).
Proof.
  pose proof (check_answered server m d t log v snapshots l tags Hans Hp Hi Ht) as Hc.
  split; intros Hin.
  - destruct (existsb (String.eqb t) tags) eqn:E.
    { apply existsb_eqb_in in E. contradiction. }
    destruct m; cbn [get_download_metadata]; unfold pre_check; rewrite Hc; reflexivity.
  - apply existsb_eqb_in in Hin. rewrite Hin in Hc.
    destruct m as [|m]; cbn [get_download_metadata]; unfold pre_check; rewrite Hc;
      unfold safe_query, metadata_query.
    + exists []. split_matches; simpl; now rewrite <- app_assoc.
    + destruct (match server (log ++ [QAllSnapshots d]) (QSnapshot d t tree) with
                | TimedOut => Some true | Answer v => gateway_timeout v end) as [[|]|].
      * destruct (gdm_log_extends server m d (Some t) true "null"
                    ((log ++ [QAllSnapshots d]) ++ [QSnapshot d t tree])) as [ext He].
        exists ext. rewrite He. now rewrite <- !app_assoc.
      * exists []. split_matches; simpl; now rewrite <- app_assoc.
      * exists []. simpl; now rewrite <- app_assoc.
Qed.

End MetaProofs.

(** ** Revisions read from the manifest and the metadata *)
Module ProbeProofs.
Import Json Probe Sync.

Lemma prefix_chars a b c :
  String.prefix a b = true -> In c (list_ascii_of_string a) -> In c (list_ascii_of_string b).
Proof.
  revert b; induction a as [|x a IH]; intros b H Hin; [destruct Hin|].
  destruct b as [|y b]; [discriminate|]. simpl in H.
  destruct (ascii_dec x y) as [->|]; [|discriminate].
  destruct Hin as [->|Hin]; [now left|right; now apply IH].
Qed.

Lemma replace_aux_absent old new c0 :
  In c0 (list_ascii_of_string old) ->
  forall fuel s, ~ In c0 (list_ascii_of_string s) -> replace_aux fuel old new s = s.
Proof.
  intros Hold fuel. induction fuel as [|f IH]; intros s Hs; simpl; [reflexivity|].
  destruct (String.prefix old s) eqn:E.
  - exfalso. exact (Hs (prefix_chars old s c0 E Hold)).
  - destruct s as [|c s]; [reflexivity|]. simpl in Hs. f_equal. apply IH. tauto.
Qed.

Lemma string_prefix_app a b : String.prefix a (a ++ b) = true.
Proof.
  induction a as [|c a IH]; simpl; [destruct b; reflexivity|].
  destruct (ascii_dec c c); [exact IH|congruence].
Qed.

Lemma string_length_app a b : String.length (a ++ b) = String.length a + String.length b.
Proof. induction a as [|c a IH]; simpl; [reflexivity|now rewrite IH]. Qed.

Lemma substring_app a b : substring (String.length a) (String.length b) (a ++ b) = b.
Proof.
  induction a as [|c a IH]; simpl; [|exact IH].
  induction b as [|c b IH]; simpl; [reflexivity|now rewrite IH].
Qed.

Lemma py_replace_head old new s c0 :
  In c0 (list_ascii_of_string old) -> ~ In c0 (list_ascii_of_string s) ->
  py_replace (old ++ s) old new = (new ++ s)%string.
Proof.
  intros Hold Hs. unfold py_replace. cbn [replace_aux].
  rewrite string_prefix_app, string_length_app.
  replace (String.length old + String.length s - String.length old) with (String.length s) by lia.
  rewrite substring_app. f_equal. exact (replace_aux_absent old new c0 Hold _ s Hs).
Qed.

Lemma string_app_assoc a b c : ((a ++ b) ++ c)%string = (a ++ b ++ c)%string.
Proof. induction a as [|x a IH]; simpl; [reflexivity|now rewrite IH]. Qed.

Lemma slash_in_doi_start id : In "/"%char (list_ascii_of_string (expected_doi_start id)).
Proof. unfold expected_doi_start. simpl. do 8 right. now left. Qed.

Lemma colon_in_dataset_key id : In ":"%char (list_ascii_of_string (id ++ ":")).
Proof.
  induction id as [|c id IH]; simpl; [now left|now right].
Qed.

Lemma loads_utf8 dl txt v : loads dl txt = Some v -> utf8_valid (list_ascii_of_string txt) = true.
Proof. unfold loads. now destruct (utf8_valid (list_ascii_of_string txt)). Qed.

Lemma get_local_tag_version dl dataset_id txt fs d ver
  (Hl : loads dl txt = Some (JObj fs)) (Hd : dict_get fs "DatasetDOI" = Some (JStr d))
  (Hdoi : strip_doi d = (expected_doi_start dataset_id ++ ver)%string)
  (Hslash : ~ In "/"%char (list_ascii_of_string ver)) :
  get_local_tag dl dataset_id (Some txt) = inr (Some ver).
Proof.
  unfold get_local_tag. rewrite (loads_utf8 dl txt _ Hl). simpl.
  destruct (String.eqb txt "") eqn:Ht.
  { apply String.eqb_eq in Ht. subst txt. discriminate Hl. }
  rewrite Hl. unfold py_contains.
  destruct (existsb (fun kv => String.eqb (fst kv) "DatasetDOI") fs) eqn:Ek.
  2:{ apply SyncProofs.existsb_key_dict_get in Ek. congruence. }
  unfold py_getitem. rewrite Hd, Hdoi, string_prefix_app.
  rewrite (py_replace_head _ "" ver "/"%char (slash_in_doi_start dataset_id) Hslash). reflexivity.
Qed.

(** A manifest whose [DatasetDOI] reads as the expected DOI prefix of
    the dataset followed by a version without ['/'] gives that version
    as the local tag. *)
Theorem local_tag_is_version dl dataset_id txt fs d ver
  (Hl : loads dl txt = Some (JObj fs)) (Hd : dict_get fs "DatasetDOI" = Some (JStr d))
  (Hdoi : strip_doi d = (expected_doi_start dataset_id ++ ver)%string)
  (Hslash : ~ In "/"%char (list_ascii_of_string ver)) :
  get_local_tag dl dataset_id (Some txt) = inr (Some ver).
Proof. exact (get_local_tag_version dl dataset_id txt fs d ver Hl Hd Hdoi Hslash). Qed.

(** When the metadata's id is ['<dataset>:<tag>'] and the local
    manifest records the same tag, the revision check passes without a
    warning and the download proceeds. *)
Theorem same_revision_passes md5 gcm server dl dataset tag meta target txt fs d include exclude vh vs
  (Hid : md_id meta = (dataset ++ ":" ++ tag)%string)
  (Hcolon : ~ In ":"%char (list_ascii_of_string tag))
  (Hslash : ~ In "/"%char (list_ascii_of_string tag))
  (Hman : lookup (ld_files target) "dataset_description.json" = Some txt)
  (Hl : loads dl txt = Some (JObj fs)) (Hd : dict_get fs "DatasetDOI" = Some (JStr d))
  (Hdoi : strip_doi d = (expected_doi_start dataset ++ tag)%string) :
  effective_tag dataset meta = tag /\
  download md5 gcm server dl dataset meta target include exclude vh vs
  = (fst (proceed md5 gcm server dataset meta target include exclude vh vs),
     snd (proceed md5 gcm server dataset meta target include exclude vh vs), []).
Proof.
  assert (He : effective_tag dataset meta = tag).
  { unfold effective_tag. rewrite Hid, <- string_app_assoc.
    exact (py_replace_head _ "" tag ":"%char (colon_in_dataset_key dataset) Hcolon). }
  split; [exact He|].
  rewrite SyncProofs.download_on_check. unfold revision_check. rewrite He.
  destruct (ld_exists target && negb (dir_empty target)); [|reflexivity].
  unfold probe_local.
  rewrite Hman, (get_local_tag_version dl dataset txt fs d tag Hl Hd Hdoi Hslash), String.eqb_refl.
  reflexivity.
Qed.

End ProbeProofs.

(** ** Glob patterns *)
Module GlobProofs.
Import Glob Select.

Lemma translate_literal : forall fuel pat res,
  is_literal pat = true -> length pat <= fuel ->
  translate_aux fuel pat res = rev res ++ map TLit pat.
Proof.
  induction fuel as [|f IH]; intros pat res Hl Hlen.
  - destruct pat; [|simpl in Hlen; lia]. simpl. now rewrite app_nil_r.
  - destruct pat as [|c pat]; simpl; [now rewrite app_nil_r|].
    simpl in Hl. apply andb_true_iff in Hl as [Hc Hl].
    destruct (Ascii.eqb c "*"%char), (Ascii.eqb c "?"%char), (Ascii.eqb c "["%char);
      try discriminate Hc.
    rewrite IH by (simpl in Hlen; lia || exact Hl). simpl. now rewrite <- app_assoc.
Qed.

Lemma tmatch_lits p s : tmatch (map TLit p) s = true <-> s = p.
Proof.
  revert s; induction p as [|c p IH]; intros s; destruct s as [|d s]; simpl;
    try (split; congruence).
  rewrite andb_true_iff, IH. split.
  - intros [H ->]. apply Ascii.eqb_eq in H. now subst.
  - intros H. injection H as -> ->. split; [apply Ascii.eqb_refl|reflexivity].
Qed.

Lemma list_ascii_of_string_inj a b : list_ascii_of_string a = list_ascii_of_string b -> a = b.
Proof.
  intros H. rewrite <- (string_of_list_ascii_of_string a), <- (string_of_list_ascii_of_string b).
  now rewrite H.
Qed.

Lemma fnmatch_literal name pat :
  is_literal (list_ascii_of_string pat) = true -> fnmatch name pat = true <-> name = pat.
Proof.
  intros Hl. unfold fnmatch, translate.
  rewrite translate_literal by (exact Hl || lia). simpl. rewrite tmatch_lits.
  split; [apply list_ascii_of_string_inj|now intros ->].
Qed.

(** For a pattern without [*], [?] or [[], the test
    [filename.startswith(p) or fnmatch(filename, p)] is the prefix test
    alone. *)
Theorem literal_pattern_is_prefix fname pat :
  is_literal (list_ascii_of_string pat) = true ->
  pattern_matches fname pat = String.prefix pat fname.
Proof.
  intros Hl. unfold pattern_matches.
  destruct (fnmatch fname pat) eqn:E; [|apply orb_false_r].
  apply (fnmatch_literal fname pat Hl) in E. subst. now rewrite SelectProofs.string_prefix_refl.
Qed.

Lemma tmatch_star_cons ts c l :
  tmatch (TStar :: ts) (c :: l) = tmatch ts (c :: l) || tmatch (TStar :: ts) l.
Proof. reflexivity. Qed.

Lemma tmatch_star ts l :
  tmatch (TStar :: ts) l = true <-> exists a b, l = a ++ b /\ tmatch ts b = true.
Proof.
  induction l as [|c l IH].
  - simpl. rewrite orb_false_r. split.
    + intros H. now exists [], [].
    + intros [a [b [Hab Hb]]]. destruct a, b; try discriminate. exact Hb.
  - rewrite tmatch_star_cons, orb_true_iff, IH. split.
    + intros [H|[a [b [-> Hb]]]]; [now exists [], (c :: l)|now exists (c :: a), b].
    + intros [a [b [Hab Hb]]]. destruct a as [|x a].
      * left. simpl in Hab. now subst.
      * right. injection Hab as -> ->. now exists a, b.
Qed.

Lemma list_ascii_of_string_app a b :
  list_ascii_of_string (a ++ b) = list_ascii_of_string a ++ list_ascii_of_string b.
Proof. induction a as [|c a IH]; simpl; [reflexivity|now rewrite IH]. Qed.

Lemma translate_aux_star n l res :
  translate_aux (S n) ("*"%char :: l) res = translate_aux n l (add_star res).
Proof. reflexivity. Qed.

(** A pattern ['*' + s], with [s] free of wildcards, matches exactly
    the names that end with [s]. *)
Theorem star_suffix_pattern name s :
  is_literal (list_ascii_of_string s) = true ->
  fnmatch name ("*" ++ s) = true <-> exists p, name = (p ++ s)%string.
Proof.
  intros Hl. unfold fnmatch, translate.
  replace (list_ascii_of_string ("*" ++ s)) with ("*"%char :: list_ascii_of_string s) by reflexivity.
  cbn [Datatypes.length]. rewrite translate_aux_star.
  rewrite (translate_literal _ _ (add_star []) Hl (le_n _)). cbn [rev add_star app]. rewrite tmatch_star. split.
  - intros [a [b [Hab Hb]]]. apply tmatch_lits in Hb. subst b.
    exists (string_of_list_ascii a). apply list_ascii_of_string_inj.
    now rewrite list_ascii_of_string_app, list_ascii_of_string_of_list_ascii.
  - intros [p ->]. exists (list_ascii_of_string p), (list_ascii_of_string s).
    rewrite list_ascii_of_string_app. split; [reflexivity|now apply tmatch_lits].
Qed.

End GlobProofs.

(** ** Single-file downloads against a server *)
Module FileDlExtra.
Import FileDl.

Lemma plan_fetch_shape md5 vh local size hash m rng unl lfs :
  plan_download md5 vh local size hash = PFetch m rng unl lfs ->
  m = WB \/ (m = AB /\ unl = false /\ exists c, local = Some c /\ lfs = String.length c).
Proof.
  unfold plan_download. destruct local as [c|]; [|intros H; injection H; auto].
  repeat match goal with |- context [if ?x then _ else _] => destruct x end;
    intros H; inversion H; subst; auto.
  right. split; [reflexivity|]. split; [reflexivity|]. now exists c.
Qed.

Lemma length_zero_empty s : String.length s = 0 -> s = EmptyString.
Proof. destruct s; [reflexivity|discriminate]. Qed.

Lemma hashed_is_final md5 local size hash m rng unl lfs payload :
  plan_download md5 true local size hash = PFetch m rng unl lfs ->
  ((if true && Nat.ltb 0 lfs
    then match m with AB => match (if unl then None else local) with Some c => c | None => "" end
                    | WB => "" end else "") ++ payload)%string =
  (match m with AB => match (if unl then None else local) with Some c => c | None => "" end
              | WB => "" end ++ payload)%string.
Proof.
  intros Hp. destruct (plan_fetch_shape _ _ _ _ _ _ _ _ _ Hp) as [->|[-> [-> [c [-> ->]]]]].
  - now destruct (Nat.ltb 0 lfs).
  - destruct (Nat.ltb_spec 0 (String.length c)); [reflexivity|].
    now rewrite (length_zero_empty c) by lia.
Qed.

(** After an attempt that completes with size checking on and a
    [content-length] header present, a second attempt on the file it
    left sends only the HEAD request and skips. *)
Theorem completed_then_skipped md5 vh url local rf reqs c'
  (Hn : rf_content_length rf <> None)
  (H : download_file_attempt md5 vh true url local rf = (reqs, Some c', Completed)) :
  download_file_attempt md5 vh true url (Some c') rf = ([HEAD url], Some c', Skipped).
Proof.
  unfold download_file_attempt in H.
  destruct (plan_download md5 vh local (rf_content_length rf) (etag_hash (rf_etag rf)))
    as [|m rng unl lfs] eqn:Hp; [congruence|].
  destruct (serve rf rng) as [st|payload]; [congruence|].
  cbv zeta in H.
  destruct (vh && match etag_hash (rf_etag rf) with
                  | Some h => negb (String.eqb (md5 _) h) | None => false end) eqn:Eh;
    [congruence|].
  destruct (true && match rf_content_length rf with
                    | Some n => negb (Nat.eqb (String.length _) n) | None => false end) eqn:Es;
    [congruence|].
  injection H as _ Hc'. rewrite Hc' in Es.
  unfold download_file_attempt, plan_download.
  destruct (rf_content_length rf) as [n|]; [|contradiction].
  simpl in Es. apply negb_false_iff in Es. rewrite Es.
  destruct vh; [|reflexivity].
  rewrite (hashed_is_final _ _ _ _ _ _ _ _ _ Hp), Hc' in Eh. rewrite Eh. reflexivity.
Qed.

Lemma prefix_length c s : String.prefix c s = true -> String.length c <= String.length s.
Proof.
  revert s; induction c as [|a c IH]; intros s H; simpl; [lia|].
  destruct s as [|b s]; [discriminate|]. simpl in H.
  destruct (ascii_dec a b); [|discriminate]. simpl. specialize (IH s H). lia.
Qed.

Lemma prefix_same_length c s :
  String.prefix c s = true -> String.length c = String.length s -> c = s.
Proof.
  revert s; induction c as [|a c IH]; intros s H Hl.
  - now destruct s.
  - destruct s as [|b s]; [discriminate|]. simpl in H.
    destruct (ascii_dec a b) as [->|]; [|discriminate]. simpl in Hl. f_equal. apply IH; auto.
Qed.

Lemma substring_length k m s :
  k + m <= String.length s -> String.length (substring k m s) = m.
Proof.
  revert k m; induction s as [|a s IH]; intros k m H; simpl in *.
  - destruct k, m; simpl in *; lia.
  - destruct k as [|k].
    + destruct m as [|m]; simpl; [reflexivity|]. rewrite IH; lia.
    + apply IH. lia.
Qed.

(** With a server whose [content-length] is the length of its content
    and whose etag is absent or the MD5 of that content, an attempt that
    starts from no local file or from a prefix of the content leaves
    exactly the content on disk, and completes or skips. *)
Theorem consistent_server_yields_content md5 vh vs url local rf
  (Hlen : rf_content_length rf = Some (String.length (rf_content rf)))
  (Hetag : etag_hash (rf_etag rf) = None \/ etag_hash (rf_etag rf) = Some (md5 (rf_content rf)))
  (Hloc : match local with None => True | Some c => String.prefix c (rf_content rf) = true end) :
  exists reqs o, download_file_attempt md5 vh vs url local rf = (reqs, Some (rf_content rf), o) /\
                 (o = Completed \/ o = Skipped).
Proof.
  set (C := rf_content rf) in *.
  assert (Hhash : forall x, (vh = true -> x = C) ->
            vh && match etag_hash (rf_etag rf) with
                  | Some h => negb (String.eqb (md5 x) h) | None => false end = false).
  { intros x Hx. destruct vh; [|reflexivity]. rewrite (Hx eq_refl).
    destruct Hetag as [-> | ->]; [reflexivity|]. now rewrite String.eqb_refl. }
  unfold download_file_attempt, plan_download. rewrite Hlen.
  destruct local as [c|].
  - assert (Hle := prefix_length _ _ Hloc).
    destruct (Nat.eqb_spec (String.length c) (String.length C)) as [Heq|Hne].
    + assert (c = C) by (apply prefix_same_length; auto). subst c.
      rewrite (Hhash C (fun _ => eq_refl)). eexists; exists Skipped; split; [reflexivity|auto].
    + assert (Hlt : String.length c < String.length C) by lia.
      rewrite (proj2 (Nat.ltb_lt _ _) Hlt). cbv beta iota zeta.
      unfold serve. fold C. rewrite (proj2 (Nat.ltb_lt _ _) Hlt). cbv beta iota.
      assert (Hfin : (c ++ substring (String.length c) (String.length C - String.length c) C)%string = C)
        by now apply FileDlProofs.prefix_append_substring.
      rewrite Hhash, Hfin, Nat.eqb_refl, andb_false_r.
      * eexists; exists Completed; split; [reflexivity|auto].
      * intros ->. destruct (Nat.ltb_spec 0 (String.length c)); [exact Hfin|].
        rewrite (length_zero_empty c) in Hfin |- * by lia. exact Hfin.
  - cbv beta iota zeta. unfold serve. fold C.
    rewrite Hhash by (intros _; now destruct vh). simpl. rewrite Nat.eqb_refl, andb_false_r.
    eexists; exists Completed; split; [reflexivity|auto].
Qed.

(** Without a [content-length] header, whatever lies on disk, the file
    is fetched whole with no [Range] header and ends up as the server
    content; the size check never fails. *)
Theorem no_length_full_download md5 vh vs url local rf
  (Hn : rf_content_length rf = None) :
  exists o, download_file_attempt md5 vh vs url local rf
            = ([HEAD url; GET url [("Accept-Encoding", "")]], Some (rf_content rf), o) /\
            (o = Completed \/ o = HashAssertionError).
Proof.
  unfold download_file_attempt, plan_download. rewrite Hn.
  destruct local as [c|]; cbv beta iota zeta; unfold serve; cbv beta iota;
    destruct (vh && _); rewrite ?andb_false_r; eexists; split; (reflexivity || auto).
Qed.

(** When no hash is checked, a shorter local file that is not a prefix
    of the remote content is resumed: the attempt reports [Completed]
    with a file of the right size that differs from the remote content,
    and a later attempt skips that file. *)
Theorem unverified_resume_keeps_corruption md5 vh vs url c rf
  (Hnohash : vh = false \/ etag_hash (rf_etag rf) = None)
  (Hlen : rf_content_length rf = Some (String.length (rf_content rf)))
  (Hshort : String.length c < String.length (rf_content rf))
  (Hnp : String.prefix c (rf_content rf) = false) :
  exists final,
    download_file_attempt md5 vh vs url (Some c) rf
    = ([HEAD url; GET url [("Accept-Encoding", ""); range_header (String.length c)]], Some final, Completed) /\
    final <> rf_content rf /\
    download_file_attempt md5 vh vs url (Some final) rf = ([HEAD url], Some final, Skipped).
Proof.
  set (C := rf_content rf) in *.
  set (final := (c ++ substring (String.length c) (String.length C - String.length c) C)%string).
  assert (Hfl : String.length final = String.length C).
  { unfold final. rewrite ProbeProofs.string_length_app, substring_length; lia. }
  assert (Hnh : forall x, vh && match etag_hash (rf_etag rf) with
                          | Some h => negb (String.eqb (md5 x) h) | None => false end = false).
  { intros x. destruct Hnohash as [-> | ->]; [reflexivity|now destruct vh]. }
  exists final. split; [|split].
  - unfold download_file_attempt, plan_download. rewrite Hlen.
    rewrite (proj2 (Nat.eqb_neq _ _) (Nat.lt_neq _ _ Hshort)), (proj2 (Nat.ltb_lt _ _) Hshort).
    cbv beta iota zeta. unfold serve. fold C. rewrite (proj2 (Nat.ltb_lt _ _) Hshort).
    cbv beta iota. rewrite Hnh. fold final. rewrite Hfl, Nat.eqb_refl, andb_false_r. reflexivity.
  - intros He. assert (Hp : String.prefix c final = true) by apply ProbeProofs.string_prefix_app.
    rewrite He in Hp. congruence.
  - unfold download_file_attempt, plan_download. rewrite Hlen, Hfl, Nat.eqb_refl, Hnh. reflexivity.
Qed.

End FileDlExtra.

(** ** The target directory across a run *)
Module SyncExtra.
Import Select Walk FileDl Sync.

Lemma prepare_files d fs : ld_files (fst (fst (prepare d fs))) = ld_files d.
Proof.
  revert d; induction fs as [|f fs IH]; intros d; simpl; [reflexivity|].
  destruct (urls f) as [|url us]; [reflexivity|].
  destruct (parent_is_file (ld_files d) (filename f)); [reflexivity|].
  specialize (IH (mk_dir true (mkdirs (ld_dirs d) (filename f)) (ld_files d))).
  destruct (prepare _ fs) as [[d'' jobs] err]. exact IH.
Qed.

Lemma mkdirs_keeps dirs p q : In q dirs -> In q (mkdirs dirs p).
Proof. intros H. unfold mkdirs. apply in_or_app. now left. Qed.

Lemma mkdirs_parents dirs p q : In q (parent_dirs p) -> In q (mkdirs dirs p).
Proof.
  intros H. unfold mkdirs. apply in_or_app.
  destruct (existsb (String.eqb q) dirs) eqn:E.
  - left. apply existsb_exists in E as [x [Hx Hq]]. apply String.eqb_eq in Hq. now subst.
  - right. apply filter_In. rewrite E. auto.
Qed.

Lemma prepare_dirs d fs q : In q (ld_dirs d) -> In q (ld_dirs (fst (fst (prepare d fs)))).
Proof.
  revert d; induction fs as [|f fs IH]; intros d Hq; simpl; [exact Hq|].
  destruct (urls f) as [|url us]; [exact Hq|].
  destruct (parent_is_file (ld_files d) (filename f)); [exact Hq|].
  specialize (IH (mk_dir true (mkdirs (ld_dirs d) (filename f)) (ld_files d))).
  destruct (prepare _ fs) as [[d'' jobs] err]. apply IH, mkdirs_keeps, Hq.
Qed.

Lemma prepare_jobs_in d fs p : In p (map fst (snd (fst (prepare d fs)))) -> In p (map filename fs).
Proof.
  revert d; induction fs as [|f fs IH]; intros d; simpl; [auto|].
  destruct (urls f) as [|url us]; [simpl; tauto|].
  destruct (parent_is_file (ld_files d) (filename f)); [simpl; tauto|].
  specialize (IH (mk_dir true (mkdirs (ld_dirs d) (filename f)) (ld_files d))).
  destruct (prepare _ fs) as [[d'' jobs] err]. simpl in *. intuition.
Qed.

Lemma prepare_ok d fs :
  snd (prepare d fs) = None -> map fst (snd (fst (prepare d fs))) = map filename fs.
Proof.
  revert d; induction fs as [|f fs IH]; intros d; simpl; [auto|].
  destruct (urls f) as [|url us]; [discriminate|].
  destruct (parent_is_file (ld_files d) (filename f)); [discriminate|].
  specialize (IH (mk_dir true (mkdirs (ld_dirs d) (filename f)) (ld_files d))).
  destruct (prepare _ fs) as [[d'' jobs] err]. simpl in *. intros H. now rewrite IH.
Qed.

Lemma prepare_parents d fs f q :
  snd (prepare d fs) = None -> In f fs -> In q (parent_dirs (filename f)) ->
  In q (ld_dirs (fst (fst (prepare d fs)))).
Proof.
  revert d; induction fs as [|g fs IH]; intros d Hok Hf Hq; simpl in *; [contradiction|].
  destruct (urls g) as [|url us]; [discriminate|].
  destruct (parent_is_file (ld_files d) (filename g)); [discriminate|].
  specialize (IH (mk_dir true (mkdirs (ld_dirs d) (filename g)) (ld_files d))).
  pose proof (prepare_dirs (mk_dir true (mkdirs (ld_dirs d) (filename g)) (ld_files d)) fs q) as Hd.
  destruct (prepare _ fs) as [[d'' jobs] err]. simpl in *.
  destruct Hf as [->|Hf]; [apply Hd, mkdirs_parents, Hq|]. apply IH; auto.
Qed.



Lemma lookup_app fs gs p :
  lookup (fs ++ gs) p = match lookup fs p with Some c => Some c | None => lookup gs p end.
Proof.
  induction fs as [|[q c] fs IH]; simpl; [reflexivity|]. now destruct (String.eqb q p).
Qed.

Lemma lookup_remove_other fs q p : q <> p -> lookup (remove_file fs q) p = lookup fs p.
Proof.
  intros Hne. induction fs as [|[r c] fs IH]; simpl; [reflexivity|].
  destruct (String.eqb_spec r q) as [->|Hrq]; simpl.
  - apply String.eqb_neq in Hne. now rewrite Hne.
  - now rewrite IH.
Qed.

Lemma lookup_remove_same fs p : lookup (remove_file fs p) p = None.
Proof.
  induction fs as [|[r c] fs IH]; simpl; [reflexivity|].
  destruct (String.eqb_spec r p) as [->|Hrp]; simpl; [exact IH|].
  apply String.eqb_neq in Hrp. now rewrite Hrp.
Qed.

Lemma lookup_put_other fs q c p : q <> p -> lookup (put_file fs q c) p = lookup fs p.
Proof.
  intros Hne. destruct c as [x|]; simpl; [|now apply lookup_remove_other].
  rewrite lookup_app, lookup_remove_other by exact Hne. simpl.
  apply String.eqb_neq in Hne. rewrite Hne. now destruct (lookup fs p).
Qed.

Lemma lookup_put_same fs p x : lookup (put_file fs p (Some x)) p = Some x.
Proof. simpl. rewrite lookup_app, lookup_remove_same. simpl. now rewrite String.eqb_refl. Qed.

Lemma run_jobs_frame md5 server vh vs d jobs p :
  ~ In p (map fst jobs) ->
  lookup (ld_files (snd (run_jobs md5 server vh vs d jobs))) p = lookup (ld_files d) p /\
  ld_dirs (snd (run_jobs md5 server vh vs d jobs)) = ld_dirs d.
Proof.
  revert d; induction jobs as [|[q url] js IH]; intros d Hp; simpl in *; [auto|].
  destruct (download_file_attempt md5 vh vs url (lookup (ld_files d) q) (server url))
    as [[reqs after] o].
  assert (Hq : q <> p) by tauto.
  destruct o; simpl; try (split; [apply lookup_put_other, Hq|reflexivity]);
    (destruct (IH (mk_dir (ld_exists d) (ld_dirs d) (put_file (ld_files d) q after))) as [H1 H2];
     [tauto|]; split; [rewrite H1; apply lookup_put_other, Hq|exact H2]).
Qed.

Lemma attempt_ok_present md5 vh vs url local rf reqs after o :
  download_file_attempt md5 vh vs url local rf = (reqs, after, o) ->
  o = Completed \/ o = Skipped -> after <> None.
Proof.
  unfold download_file_attempt.
  destruct (plan_download md5 vh local (rf_content_length rf) (etag_hash (rf_etag rf))) eqn:Hp.
  - intros H _. injection H as _ <- _. destruct local; [discriminate|discriminate Hp].
  - destruct (serve rf range_from); cbv zeta.
    + intros H Ho. injection H as _ _ <-. destruct Ho; discriminate.
    + repeat match goal with |- context [if ?x then _ else _] => destruct x end;
        intros H _; injection H as _ <- _; discriminate.
Qed.

Lemma run_jobs_dirs md5 server vh vs d jobs :
  ld_dirs (snd (run_jobs md5 server vh vs d jobs)) = ld_dirs d.
Proof.
  revert d; induction jobs as [|[p url] js IH]; intros d; simpl; [reflexivity|].
  destruct (download_file_attempt md5 vh vs url (lookup (ld_files d) p) (server url))
    as [[reqs after] o].
  destruct o; simpl; try reflexivity; rewrite IH; reflexivity.
Qed.

Lemma run_jobs_ok md5 server vh vs d jobs :
  fst (run_jobs md5 server vh vs d jobs) = inr tt ->
  forall q, lookup (ld_files d) q <> None \/ In q (map fst jobs) ->
  lookup (ld_files (snd (run_jobs md5 server vh vs d jobs))) q <> None.
Proof.
  revert d; induction jobs as [|[p url] js IH]; intros d Hok q Hq; simpl in *.
  - destruct Hq; [auto|contradiction].
  - destruct (download_file_attempt md5 vh vs url (lookup (ld_files d) p) (server url))
      as [[reqs after] o] eqn:Ha.
    assert (Hcont : o = Completed \/ o = Skipped) by (destruct o; auto; discriminate Hok).
    set (d' := mk_dir (ld_exists d) (ld_dirs d) (put_file (ld_files d) p after)) in *.
    destruct Hcont as [-> | ->]; (apply (IH d' Hok q);
      ( destruct (String.eqb_spec p q) as [<-|Hpq];
        [ left; simpl; destruct after as [x|];
          [rewrite lookup_put_same; discriminate
          |exfalso; eapply attempt_ok_present; eauto]
        | destruct Hq as [Hq|[Hq|Hq]]; [left; simpl; rewrite lookup_put_other; auto|contradiction|auto] ])).
Qed.

(** A local file whose path is not among the traversed entries is left
    as it was, whatever the selection and the downloads do. *)
Theorem proceed_frame md5 gcm server dataset meta target include exclude vh vs p
  (Hp : ~ In p (map filename (iterate_filenames "" (md_files meta)))) :
  lookup (ld_files (snd (proceed md5 gcm server dataset meta target include exclude vh vs))) p
  = lookup (ld_files target) p.
Proof.
  unfold proceed.
  destruct (select gcm include exclude (iterate_filenames "" (md_files meta))) as [e|files] eqn:Hs;
    [reflexivity|].
  apply SelectProofs.select_inr_files in Hs. rewrite SelectProofs.select_loop_files in Hs.
  assert (Hpf : ~ In p (map filename files)).
  { intros Hin. apply Hp. subst files. apply in_map_iff in Hin as [f [<- Hf]].
    apply filter_In in Hf. apply in_map, Hf. }
  pose proof (prepare_files target files) as Hfi.
  pose proof (prepare_jobs_in target files p) as Hj.
  destruct (prepare target files) as [[d jobs] [e|]]; simpl in *; [now rewrite Hfi|].
  rewrite (proj1 (run_jobs_frame md5 server vh vs d jobs p (fun H => Hpf (Hj H)))). now rewrite Hfi.
Qed.

(** When the downloads succeed, every selected file exists in the
    target directory with its parent directories, and no directory that
    existed before is gone. *)
Theorem proceed_success_materialises md5 gcm server dataset meta target include exclude vh vs files
  (Hsel : select gcm include exclude (iterate_filenames "" (md_files meta)) = inr files)
  (Hok : fst (proceed md5 gcm server dataset meta target include exclude vh vs) = inr tt) :
  let d := snd (proceed md5 gcm server dataset meta target include exclude vh vs) in
  (forall f, In f files -> lookup (ld_files d) (filename f) <> None /\
                          incl (parent_dirs (filename f)) (ld_dirs d)) /\
  incl (ld_dirs target) (ld_dirs d).
Proof.
  unfold proceed in *. rewrite Hsel in *.
  pose proof (prepare_ok target files) as Hj.
  pose proof (prepare_dirs target files) as Hd.
  pose proof (fun f q => prepare_parents target files f q) as Hpar.
  destruct (prepare target files) as [[d jobs] [e|]]; simpl in *; [discriminate|].
  specialize (Hj eq_refl).
  rewrite run_jobs_dirs.
  split.
  - intros f Hf. split.
    + apply (run_jobs_ok md5 server vh vs d jobs Hok). right. rewrite Hj. apply in_map, Hf.
    + intros q Hq. apply (Hpar f q eq_refl Hf Hq).
  - intros q Hq. apply Hd, Hq.
Qed.


Lemma keep_pred_no_filters f : keep_pred [] [] f = true.
Proof. unfold keep_pred. simpl. now destruct (is_essential (filename f)). Qed.

(** With no include and no exclude pattern, every traversed entry is
    selected, in traversal order. *)
Theorem select_no_filters gcm es : select gcm [] [] es = inr es.
Proof.
  unfold select. rewrite SelectProofs.select_loop_files. f_equal.
  induction es as [|e es IH]; simpl; [reflexivity|]. now rewrite keep_pred_no_filters, IH.
Qed.

End SyncExtra.

(** ** The semaphore's counter *)
Module SemExtra.
Import Sem.

Lemma nth_error_set_nth_sum {A} (f : A -> nat) l i a x :
  nth_error l i = Some a -> list_sum (map f (set_nth l i x)) + f a = list_sum (map f l) + f x.
Proof.
  revert i; induction l as [|y l IH]; intros [|i] H; simpl in *; try discriminate.
  - injection H as ->. lia.
  - specialize (IH i H). lia.
Qed.

Lemma count_op_cons k o l : count_op k (o :: l) = (if op_eqb k o then 1 else 0) + count_op k l.
Proof. unfold count_op. simpl. now destruct (op_eqb k o). Qed.

Lemma step_balance i st st' :
  step i st = Some st' ->
  sem_value st' + sum_tasks (count_op Exit) (tasks st') + sum_tasks (count_op Release) (tasks st')
  + sum_tasks (count_op Enter) (tasks st)
  = sem_value st + sum_tasks (count_op Exit) (tasks st) + sum_tasks (count_op Release) (tasks st)
  + sum_tasks (count_op Enter) (tasks st').
Proof.
  unfold step. destruct (nth_error (tasks st) i) as [t|] eqn:Ht; [|discriminate].
  destruct (t_ops t) as [|o rest] eqn:Ho; [discriminate|].
  assert (G : forall v d, Some (mk_state v (set_nth (tasks st) i (mk_task rest d))) = Some st' ->
     forall k, sum_tasks (count_op k) (tasks st') + count_op k (o :: rest)
               = sum_tasks (count_op k) (tasks st) + count_op k rest /\ sem_value st' = v).
  { intros v d H k. injection H as <-. simpl. split; [|reflexivity].
    unfold sum_tasks. rewrite <- Ho.
    exact (nth_error_set_nth_sum (fun t => count_op k (t_ops t)) _ _ _ (mk_task rest d) Ht). }
  destruct o; [destruct (sem_value st) as [|v] eqn:Hv; [discriminate|]| | | | |];
    intros H; pose proof (G _ _ H Exit) as [G1 Gv]; pose proof (proj1 (G _ _ H Release)) as G2;
    pose proof (proj1 (G _ _ H Enter)) as G3; rewrite !count_op_cons in G1, G2, G3;
    simpl in G1, G2, G3; lia.
Qed.

Lemma run_balance sch st st' :
  run sch st = Some st' ->
  sem_value st' + sum_tasks (count_op Exit) (tasks st') + sum_tasks (count_op Release) (tasks st')
  + sum_tasks (count_op Enter) (tasks st)
  = sem_value st + sum_tasks (count_op Exit) (tasks st) + sum_tasks (count_op Release) (tasks st)
  + sum_tasks (count_op Enter) (tasks st').
Proof.
  revert st; induction sch as [|i sch IH]; intros st H; simpl in H.
  - injection H as ->. lia.
  - destruct (step i st) as [s1|] eqn:Hs; [|discriminate].
    pose proof (step_balance _ _ _ Hs). specialize (IH _ H). lia.
Qed.

Lemma count_op_app k l1 l2 : count_op k (l1 ++ l2) = count_op k l1 + count_op k l2.
Proof. unfold count_op. now rewrite filter_app, length_app. Qed.

Lemma download_file_ops_counts m outs :
  count_op Enter (download_file_ops m outs) = count_op Exit (download_file_ops m outs) /\
  count_op Release (download_file_ops m outs) <= m.
Proof.
  revert outs; induction m as [|m IH]; intros outs.
  - destruct outs as [|a outs]; [|destruct a]; split; reflexivity.
  - destruct outs as [|a outs]; [split; [reflexivity|cbn; lia]|].
    destruct a; cbn [download_file_ops]; try (split; [reflexivity|cbn; lia]);
    destruct (IH outs) as [H1 H2]; rewrite !count_op_app;
    unfold count_op in *; cbn; lia.
Qed.


(** Once every task has finished, whether its file was downloaded,
    skipped after the HEAD, or failed, the semaphore's counter is its
    initial value plus the number of bare releases, one per retry, so
    at most the initial value plus the retry budgets. *)
Theorem counter_grows_by_retries N jobs sch st
  (Hrun : run sch (init N (map (fun j => download_file_ops (fst j) (snd j)) jobs)) = Some st)
  (Hdone : Forall (fun t => t_ops t = []) (tasks st)) :
  sem_value st = N + list_sum (map (fun j => count_op Release (download_file_ops (fst j) (snd j))) jobs) /\
  sem_value st <= N + list_sum (map fst jobs).
Proof.
  apply run_balance in Hrun.
  assert (Hz : forall k, sum_tasks (count_op k) (tasks st) = 0).
  { intros k. clear Hrun. unfold sum_tasks. induction Hdone as [|t ts Ht _ IH]; simpl; [reflexivity|].
    rewrite Ht. exact IH. }
  rewrite !Hz in Hrun. simpl in Hrun. unfold sum_tasks in Hrun. rewrite !map_map in Hrun. simpl in Hrun.
  assert (Hs : forall (js : list (nat * list attempt)),
    list_sum (map (fun j => count_op Enter (download_file_ops (fst j) (snd j))) js)
    = list_sum (map (fun j => count_op Exit (download_file_ops (fst j) (snd j))) js) /\
    list_sum (map (fun j => count_op Release (download_file_ops (fst j) (snd j))) js)
    <= list_sum (map fst js)).
  { induction js as [|j js IH]; simpl; [lia|].
    destruct (download_file_ops_counts (fst j) (snd j)). lia. }
  destruct (Hs jobs). lia.
Qed.

Lemma Forall_set_nth {A} (P : A -> Prop) l i x :
  Forall P l -> P x -> Forall P (set_nth l i x).
Proof.
  intros H Hx. revert i; induction H as [|y l Hy Hl IH]; intros [|i]; simpl; constructor; auto.
Qed.

Lemma step_fine i st st' :
  step i st = Some st' ->
  Forall (fun t => exists k, k <= 6 /\ t_ops t = skipn k fine_ops /\
                             t_depth t = nth k [0; 1; 1; 0; 1; 1; 0] 0) (tasks st) ->
  Forall (fun t => exists k, k <= 6 /\ t_ops t = skipn k fine_ops /\
                             t_depth t = nth k [0; 1; 1; 0; 1; 1; 0] 0) (tasks st') /\
  sem_value st' + list_sum (map t_depth (tasks st')) = sem_value st + list_sum (map t_depth (tasks st)).
Proof.
  unfold step. destruct (nth_error (tasks st) i) as [t|] eqn:Ht; [|discriminate].
  intros H Hall. pose proof (proj1 (Forall_forall _ _) Hall t (nth_error_In _ _ Ht)) as [k [Hk [Ho Hd]]].
  assert (G : forall v k', k' <= 6 ->
            Some (mk_state v (set_nth (tasks st) i (mk_task (skipn k' fine_ops) (nth k' [0; 1; 1; 0; 1; 1; 0] 0))))
            = Some st' ->
            v + nth k' [0; 1; 1; 0; 1; 1; 0] 0 = sem_value st + t_depth t ->
            Forall (fun t => exists k, k <= 6 /\ t_ops t = skipn k fine_ops /\
                             t_depth t = nth k [0; 1; 1; 0; 1; 1; 0] 0) (tasks st') /\
            sem_value st' + list_sum (map t_depth (tasks st'))
            = sem_value st + list_sum (map t_depth (tasks st))).
  { intros v k' Hk' Hs Hv. remember (nth k' [0; 1; 1; 0; 1; 1; 0] 0) as dk eqn:Edk.
    injection Hs as <-. cbn [sem_value tasks]. split.
    - apply Forall_set_nth; [exact Hall|]. exists k'. simpl. auto.
    - pose proof (nth_error_set_nth_sum t_depth _ _ _ (mk_task (skipn k' fine_ops) dk) Ht) as E.
      cbn [t_depth] in E. lia. }
  rewrite Ho, Hd in *.
  destruct k as [|[|[|[|[|[|[|k]]]]]]]; try lia; cbn in H;
    try discriminate H;
    [destruct (sem_value st) as [|v] eqn:Hv; [discriminate|]; apply (G v 1)
    |apply (G (sem_value st) 2)
    |apply (G (S (sem_value st)) 3)
    |destruct (sem_value st) as [|v] eqn:Hv; [discriminate|]; apply (G v 4)
    |apply (G (sem_value st) 5)
    |apply (G (S (sem_value st)) 6)]; cbn; auto; lia.
Qed.

Lemma fine_first_ops m outs : hd Fine outs = Fine -> download_file_ops m outs = fine_ops.
Proof. unfold fine_ops. destruct outs as [|[| | | | |] outs], m; simpl; try discriminate; reflexivity. Qed.

Lemma run_fine sch st st' :
  run sch st = Some st' ->
  Forall (fun t => exists k, k <= 6 /\ t_ops t = skipn k fine_ops /\
                             t_depth t = nth k [0; 1; 1; 0; 1; 1; 0] 0) (tasks st) ->
  sem_value st' + list_sum (map t_depth (tasks st')) = sem_value st + list_sum (map t_depth (tasks st)).
Proof.
  revert st; induction sch as [|i sch IH]; intros st H Hall; simpl in H.
  - now injection H as ->.
  - destruct (step i st) as [s1|] eqn:Hs; [|discriminate].
    destruct (step_fine _ _ _ Hs Hall) as [Hall1 E]. rewrite (IH _ H Hall1). exact E.
Qed.

Lemma in_flight_le_depth ts : length (filter (fun t => Nat.ltb 0 (t_depth t)) ts) <= list_sum (map t_depth ts).
Proof.
  induction ts as [|t ts IH]; simpl; [lia|].
  destruct (Nat.ltb_spec 0 (t_depth t)); simpl; lia.
Qed.

(** When every file's first HEAD and GET succeed, at no point are more
    than [max_concurrent_downloads] files inside [async with semaphore]. *)
Theorem no_retry_within_limit N jobs sch st
  (Hfine : Forall (fun j => hd Fine (snd j) = Fine) jobs)
  (Hrun : run sch (init N (map (fun j => download_file_ops (fst j) (snd j)) jobs)) = Some st) :
  in_flight st <= N.
Proof.
  assert (Hall : Forall (fun t => exists k, k <= 6 /\ t_ops t = skipn k fine_ops /\
                             t_depth t = nth k [0; 1; 1; 0; 1; 1; 0] 0)
                        (tasks (init N (map (fun j => download_file_ops (fst j) (snd j)) jobs)))).
  { simpl. rewrite map_map. apply Forall_forall. intros t Ht.
    apply in_map_iff in Ht as [j [<- Hj]]. exists 0. simpl. split; [lia|].
    split; [|reflexivity]. apply fine_first_ops.
    exact (proj1 (Forall_forall _ _) Hfine j Hj). }
  pose proof (run_fine _ _ _ Hrun Hall) as E.
  assert (Hz : list_sum (map t_depth (tasks (init N (map (fun j => download_file_ops (fst j) (snd j)) jobs)))) = 0).
  { simpl. rewrite !map_map. simpl. clear. induction jobs; simpl; auto. }
  simpl sem_value in E. rewrite Hz in E. unfold in_flight.
  pose proof (in_flight_le_depth (tasks st)). lia.
Qed.

End SemExtra.

(** ** Instances of the hypotheses above *)
Module Witnesses.
Import Select Walk FileDl Probe Sync Samples SelectProofs WalkProofs FileDlProofs SyncProofs.

Lemma filter_keeps_iff_witness :
  is_essential (filename (ex_file "sub-01/a.nii")) = false /\
  (In (ex_file "sub-01/a.nii")
      (sel_files (select_loop ["sub-01"] ["*.json"] [ex_file "sub-01/a.nii"; ex_file "b.json"])) <->
   In (ex_file "sub-01/a.nii") [ex_file "sub-01/a.nii"; ex_file "b.json"] /\
   ((["sub-01"] = [] \/
     exists p, In p ["sub-01"] /\ (String.prefix p "sub-01/a.nii" = true \/ Glob.fnmatch "sub-01/a.nii" p = true))
    /\ ~ (exists p, In p ["*.json"] /\
             (String.prefix p "sub-01/a.nii" = true \/ Glob.fnmatch "sub-01/a.nii" p = true)))).
Proof.
  split; [reflexivity|].
  apply (filter_keeps_iff ["sub-01"] ["*.json"] [ex_file "sub-01/a.nii"; ex_file "b.json"]
           (ex_file "sub-01/a.nii")).
  reflexivity.
Defined.

Lemma essential_always_selected_witness :
  In (ex_file "README") [ex_file "README"; ex_file "a.nii"] /\
  In "README" ["dataset_description.json"; "participants.tsv"; "participants.json"; "README"; "CHANGES"] /\
  In (ex_file "README") (sel_files (select_loop ["a"] ["README"] [ex_file "README"; ex_file "a.nii"])) /\
  (forall gcm files, select gcm ["a"] ["README"] [ex_file "README"; ex_file "a.nii"] = inr files ->
     In (ex_file "README") files).
Proof.
  assert (H1 : In (ex_file "README") [ex_file "README"; ex_file "a.nii"]) by (left; reflexivity).
  assert (H2 : In "README" ["dataset_description.json"; "participants.tsv"; "participants.json";
                            "README"; "CHANGES"]) by (right; right; right; left; reflexivity).
  split; [exact H1|]. split; [exact H2|].
  exact (essential_always_selected ["a"] ["README"] _ (ex_file "README") H1 H2).
Defined.

Lemma essential_credit_exact_witness :
  is_essential (filename (ex_file "README")) = true /\
  length (sel_counts (init_state ["x"; "README"])) = length ["x"; "README"] /\
  nth_error ["x"; "README"] 1 = Some (filename (ex_file "README")) /\
  nth 1 (sel_counts (select_step ["x"; "README"] [] (init_state ["x"; "README"]) (ex_file "README"))) 0
  = S (nth 1 (sel_counts (init_state ["x"; "README"])) 0).
Proof.
  assert (Hess : is_essential (filename (ex_file "README")) = true) by reflexivity.
  assert (Hlen : length (sel_counts (init_state ["x"; "README"])) = length ["x"; "README"])
    by reflexivity.
  assert (Hat : nth_error ["x"; "README"] 1 = Some (filename (ex_file "README"))) by reflexivity.
  assert (Hfirst : forall j, j < 1 -> nth_error ["x"; "README"] j <> Some (filename (ex_file "README"))).
  { intros j Hj. destruct j; [discriminate|lia]. }
  split; [exact Hess|]. split; [exact Hlen|]. split; [exact Hat|].
  exact (proj1 (essential_credit_exact ["x"; "README"] [] (init_state ["x"; "README"])
                  (ex_file "README") 1 Hess Hlen) (conj Hat Hfirst)).
Defined.

Lemma equal_size_skip_or_refetch_witness :
  rf_content_length (mk_remote "abc" (Some 3) None) = Some (String.length "abc") /\
  etag_hash (rf_etag (mk_remote "abc" (Some 3) None)) = None /\
  download_file_attempt (fun _ => "") true true "u" (Some "abc") (mk_remote "abc" (Some 3) None)
  = ([HEAD "u"], Some "abc", Skipped).
Proof.
  assert (H : rf_content_length (mk_remote "abc" (Some 3) None) = Some (String.length "abc"))
    by reflexivity.
  assert (Hh : etag_hash (rf_etag (mk_remote "abc" (Some 3) None)) = None) by reflexivity.
  split; [exact H|]. split; [exact Hh|].
  exact (proj1 (equal_size_skip_or_refetch (fun _ => "") true true "u" "abc" _ H)
               (or_intror (or_introl Hh))).
Defined.

Lemma shorter_local_resumes_witness :
  rf_content_length (mk_remote "abcdef" (Some 6) None) = Some 6 /\ String.length "abc" < 6 /\
  fst (fst (download_file_attempt (fun _ => "") true true "u" (Some "abc")
                                   (mk_remote "abcdef" (Some 6) None)))
  = [HEAD "u"; GET "u" [("Accept-Encoding", ""); ("Range", ("bytes=" ++ dec (String.length "abc") ++ "-")%string)]].
Proof.
  assert (Hn : rf_content_length (mk_remote "abcdef" (Some 6) None) = Some 6) by reflexivity.
  assert (Hlt : String.length "abc" < 6) by (simpl; lia).
  split; [exact Hn|]. split; [exact Hlt|].
  exact (proj1 (proj2 (shorter_local_resumes (fun _ => "") true true "u" "abc" _ 6 Hn Hlt))).
Defined.

Lemma iterate_filenames_shape_witness :
  "sub-01" <> "" /\
  iterate_filenames "sub-01" ex_tree =
  map (fun e => mk_entity ("sub-01" ++ "/" ++ filename e)%string (directory e) (ent_id e) (size e) (urls e))
      (filter (fun e => negb (directory e)) (map node_entity ex_tree)) ++
  concat (map (fun t => if directory (node_entity t)
                        then iterate_filenames ("sub-01" ++ "/" ++ filename (node_entity t))%string (node_kids t)
                        else []) ex_tree).
Proof.
  assert (Hp : "sub-01" <> "") by discriminate.
  split; [exact Hp|].
  exact (proj1 (proj2 iterate_filenames_shape) "sub-01" ex_tree Hp).
Defined.

Lemma include_check_outcome_witness :
  ["sub-01"] <> [] /\
  (select (fun _ _ => []) ["sub-01"] [] [ex_file "sub-01/a.nii"]
   = inr (sel_files (select_loop ["sub-01"] [] [ex_file "sub-01/a.nii"])) <->
   (forall i, i < length ["sub-01"] ->
      exists f, In f [ex_file "sub-01/a.nii"] /\ credited ["sub-01"] [] i f = true)).
Proof.
  assert (Hne : ["sub-01"] <> []) by discriminate.
  split; [exact Hne|].
  exact (proj1 (proj1 (include_check_outcome (fun _ _ => []) ["sub-01"] [] Hne) [ex_file "sub-01/a.nii"])).
Defined.

Lemma revision_conflict_untouched_witness :
  ld_exists (ex_target (ex_manifest "doi:10.18112/openneuro.ds000001.v2.0.0")) = true /\
  dir_empty (ex_target (ex_manifest "doi:10.18112/openneuro.ds000001.v2.0.0")) = false /\
  get_local_tag 1000 "ds000001"
    (lookup (ld_files (ex_target (ex_manifest "doi:10.18112/openneuro.ds000001.v2.0.0")))
            "dataset_description.json") = inr (Some "2.0.0") /\
  "2.0.0" <> effective_tag "ds000001" ex_meta /\
  download (fun _ => "") (fun _ _ => []) (fun _ => mk_remote "x" (Some 1) None) 1000 "ds000001" ex_meta
    (ex_target (ex_manifest "doi:10.18112/openneuro.ds000001.v2.0.0")) [] [] true true
  = (inl (ERevisionConflict (effective_tag "ds000001" ex_meta) "2.0.0"),
     ex_target (ex_manifest "doi:10.18112/openneuro.ds000001.v2.0.0"), []).
Proof.
  assert (Hex : ld_exists (ex_target (ex_manifest "doi:10.18112/openneuro.ds000001.v2.0.0")) = true)
    by reflexivity.
  assert (Hne : dir_empty (ex_target (ex_manifest "doi:10.18112/openneuro.ds000001.v2.0.0")) = false)
    by reflexivity.
  assert (Hloc : get_local_tag 1000 "ds000001"
    (lookup (ld_files (ex_target (ex_manifest "doi:10.18112/openneuro.ds000001.v2.0.0")))
            "dataset_description.json") = inr (Some "2.0.0")) by (vm_compute; reflexivity).
  assert (Hdiff : "2.0.0" <> effective_tag "ds000001" ex_meta)
    by (apply String.eqb_neq; vm_compute; reflexivity).
  split; [exact Hex|]. split; [exact Hne|]. split; [exact Hloc|]. split; [exact Hdiff|].
  exact (revision_conflict_untouched (fun _ => "") (fun _ _ => []) (fun _ => mk_remote "x" (Some 1) None)
           1000 "ds000001" ex_meta _ [] [] true true "2.0.0" Hex Hne Hloc Hdiff).
Defined.


End Witnesses.

(** ** Instances of the further properties *)
Module ExtraWitnesses.
Import Json Probe Meta Glob Select Walk FileDl Sync Samples
       MoreSamples MetaProofs ProbeProofs GlobProofs FileDlExtra SyncExtra SemExtra.

Lemma listing_retry_asks_root_witness :
  get_download_metadata retry_server 1 "ds1" (Some "1.0") "t" false []
  = ([QSnapshot "ds1" "1.0" "t"; QSnapshot "ds1" "1.0" "null"], inr (JStr "root")).
Proof.
  exact (listing_retry_asks_root retry_server 0 "ds1" "1.0" "t" [] ex_snapshot (JStr "root")
           eq_refl eq_refl eq_refl eq_refl).
Defined.

Lemma persistent_gateway_timeout_witness :
  get_download_metadata (fun _ _ => Answer (ex_error "504 Gateway Time-out")) 2 "ds1" None "t" true []
  = (repeat (QDataset "ds1") 3, inl MetadataTimeout).
Proof.
  apply (persistent_gateway_timeout (fun _ _ => Answer (ex_error "504 Gateway Time-out")) 2 "ds1" "t" true []).
  intros l. right. exists (ex_error "504 Gateway Time-out"). split; reflexivity.
Defined.

Lemma query_error_not_retried_witness :
  get_download_metadata (fun _ _ => Answer (ex_error "Not found")) 3 "ds1" None "t" false []
  = ([QDataset "ds1"], inl (QueryFailed (JStr "Not found"))).
Proof.
  exact (query_error_not_retried (fun _ _ => Answer (ex_error "Not found")) 3 "ds1" None "t" []
           (ex_error "Not found") "Not found" eq_refl eq_refl eq_refl eq_refl).
Defined.

Lemma snapshot_check_gates_query_witness :
  get_download_metadata listing_server 0 "ds1" (Some "2.0.0") "t" true []
  = ([QAllSnapshots "ds1"], inl (SnapshotMissing "2.0.0" ["1.0.0"])).
Proof.
  apply (proj1 (snapshot_check_gates_query listing_server 0 "ds1" "2.0.0" "t" [] ex_listing
                  (JArr [JObj [("id", JStr "ds1:1.0.0")]]) [JObj [("id", JStr "ds1:1.0.0")]] ["1.0.0"]
                  eq_refl eq_refl eq_refl eq_refl)).
  simpl. intuition discriminate.
Defined.

Lemma local_tag_is_version_witness :
  get_local_tag 1000 "ds000001" (Some (ex_manifest "doi:10.18112/openneuro.ds000001.v1.0.0"))
  = inr (Some "1.0.0").
Proof.
  apply (local_tag_is_version 1000 "ds000001" (ex_manifest "doi:10.18112/openneuro.ds000001.v1.0.0")
           [("DatasetDOI", JStr "doi:10.18112/openneuro.ds000001.v1.0.0")]
           "doi:10.18112/openneuro.ds000001.v1.0.0" "1.0.0"); [vm_compute; reflexivity..|].
  simpl. intuition discriminate.
Defined.

Lemma same_revision_passes_witness :
  effective_tag "ds000001" ex_meta = "1.0.0" /\
  download (fun _ => "") (fun _ _ => []) ex_files_server 1000 "ds000001" ex_meta
    (ex_target (ex_manifest "10.18112/openneuro.ds000001.v1.0.0")) [] [] true true
  = (fst (proceed (fun _ => "") (fun _ _ => []) ex_files_server "ds000001" ex_meta
            (ex_target (ex_manifest "10.18112/openneuro.ds000001.v1.0.0")) [] [] true true),
     snd (proceed (fun _ => "") (fun _ _ => []) ex_files_server "ds000001" ex_meta
            (ex_target (ex_manifest "10.18112/openneuro.ds000001.v1.0.0")) [] [] true true), []).
Proof.
  apply (same_revision_passes (fun _ => "") (fun _ _ => []) ex_files_server 1000 "ds000001" "1.0.0" ex_meta
           (ex_target (ex_manifest "10.18112/openneuro.ds000001.v1.0.0"))
           (ex_manifest "10.18112/openneuro.ds000001.v1.0.0")
           [("DatasetDOI", JStr "10.18112/openneuro.ds000001.v1.0.0")]
           "10.18112/openneuro.ds000001.v1.0.0");
    try (vm_compute; reflexivity); simpl; intuition discriminate.
Defined.

Lemma literal_pattern_is_prefix_witness :
  pattern_matches "sub-01/anat/T1w.nii" "sub-01" = String.prefix "sub-01" "sub-01/anat/T1w.nii".
Proof. exact (literal_pattern_is_prefix "sub-01/anat/T1w.nii" "sub-01" eq_refl). Defined.

Lemma star_suffix_pattern_witness :
  fnmatch "sub-01/anat/T1w.nii" ("*" ++ ".nii") = true <->
  exists p, "sub-01/anat/T1w.nii" = (p ++ ".nii")%string.
Proof. exact (star_suffix_pattern "sub-01/anat/T1w.nii" ".nii" eq_refl). Defined.

Lemma consistent_server_yields_content_witness :
  exists reqs o,
    download_file_attempt (fun _ => "") true true "u" (Some "abc") (mk_remote "abcdef" (Some 6) None)
    = (reqs, Some "abcdef", o) /\ (o = Completed \/ o = Skipped).
Proof.
  exact (consistent_server_yields_content (fun _ => "") true true "u" (Some "abc")
           (mk_remote "abcdef" (Some 6) None) eq_refl (or_introl eq_refl) eq_refl).
Defined.

Lemma completed_then_skipped_witness :
  download_file_attempt (fun _ => "") true true "u" (Some "abcdef") (mk_remote "abcdef" (Some 6) None)
  = ([HEAD "u"], Some "abcdef", Skipped).
Proof.
  apply (completed_then_skipped (fun _ => "") true "u" (Some "abc") (mk_remote "abcdef" (Some 6) None)
           [HEAD "u"; GET "u" [("Accept-Encoding", ""); range_header 3]] "abcdef");
    [discriminate|vm_compute; reflexivity].
Defined.

Lemma no_length_full_download_witness :
  exists o, download_file_attempt (fun _ => "") true true "u" (Some "zz") (mk_remote "abc" None None)
            = ([HEAD "u"; GET "u" [("Accept-Encoding", "")]], Some "abc", o) /\
            (o = Completed \/ o = HashAssertionError).
Proof.
  exact (no_length_full_download (fun _ => "") true true "u" (Some "zz") (mk_remote "abc" None None) eq_refl).
Defined.

Lemma unverified_resume_keeps_corruption_witness :
  exists final,
    download_file_attempt (fun _ => "") false true "u" (Some "xy") (mk_remote "abcdef" (Some 6) None)
    = ([HEAD "u"; GET "u" [("Accept-Encoding", ""); range_header 2]], Some final, Completed) /\
    final <> "abcdef" /\
    download_file_attempt (fun _ => "") false true "u" (Some final) (mk_remote "abcdef" (Some 6) None)
    = ([HEAD "u"], Some final, Skipped).
Proof.
  apply (unverified_resume_keeps_corruption (fun _ => "") false true "u" "xy" (mk_remote "abcdef" (Some 6) None)
           (or_introl eq_refl) eq_refl); [simpl; lia|reflexivity].
Defined.

Lemma proceed_frame_witness :
  lookup (ld_files (snd (proceed (fun _ => "") (fun _ _ => []) ex_files_server "ds1" ex_meta2
                           ex_local [] [] true true))) "notes.txt" = Some "mine".
Proof.
  apply (proceed_frame (fun _ => "") (fun _ _ => []) ex_files_server "ds1" ex_meta2 ex_local [] [] true true
           "notes.txt").
  simpl. intuition discriminate.
Defined.

Lemma proceed_success_materialises_witness :
  lookup (ld_files (snd (proceed (fun _ => "") (fun _ _ => []) ex_files_server "ds1" ex_meta2
                           ex_local [] [] true true))) "sub-01/a.nii" <> None /\
  In "sub-01" (ld_dirs (snd (proceed (fun _ => "") (fun _ _ => []) ex_files_server "ds1" ex_meta2
                              ex_local [] [] true true))).
Proof.
  destruct (proj1 (proceed_success_materialises (fun _ => "") (fun _ _ => []) ex_files_server "ds1" ex_meta2
                     ex_local [] [] true true (iterate_filenames "" (md_files ex_meta2))
                     ltac:(vm_compute; reflexivity) eq_refl)
              (mk_entity "sub-01/a.nii" false "" 3 ["u2"]) (or_intror (or_introl eq_refl)))
    as [H1 H2].
  split; [exact H1|]. apply H2. left. reflexivity.
Defined.


Lemma counter_grows_by_retries_witness :
  Sem.run (repeat 0 11 ++ [1; 1; 1; 2; 2; 2; 2; 2; 2])
    (Sem.init 1 (map (fun j => Sem.download_file_ops (fst j) (snd j)) ex_skip_jobs))
  = Some (Sem.mk_state 2 [Sem.mk_task [] 0; Sem.mk_task [] 0; Sem.mk_task [] 0]) /\
  2 = 1 + list_sum (map (fun j => Sem.count_op Sem.Release (Sem.download_file_ops (fst j) (snd j))) ex_skip_jobs).
Proof.
  assert (E : Sem.run (repeat 0 11 ++ [1; 1; 1; 2; 2; 2; 2; 2; 2])
                (Sem.init 1 (map (fun j => Sem.download_file_ops (fst j) (snd j)) ex_skip_jobs))
              = Some (Sem.mk_state 2 [Sem.mk_task [] 0; Sem.mk_task [] 0; Sem.mk_task [] 0]))
    by (vm_compute; reflexivity).
  split; [exact E|].
  exact (proj1 (counter_grows_by_retries 1 ex_skip_jobs _ _ E ltac:(repeat constructor))).
Defined.

Lemma no_retry_within_limit_witness :
  Sem.run [0; 0; 0; 1] (Sem.init 1 (map (fun j => Sem.download_file_ops (fst j) (snd j)) ex_fine_jobs))
  = Some (Sem.mk_state 0 [Sem.mk_task [Sem.Enter; Sem.Io "GET"; Sem.Exit] 0;
                          Sem.mk_task [Sem.Io "HEAD"; Sem.Exit; Sem.Enter; Sem.Io "GET"; Sem.Exit] 1;
                          Sem.mk_task Sem.fine_ops 0]) /\
  Sem.in_flight (Sem.mk_state 0 [Sem.mk_task [Sem.Enter; Sem.Io "GET"; Sem.Exit] 0;
                                 Sem.mk_task [Sem.Io "HEAD"; Sem.Exit; Sem.Enter; Sem.Io "GET"; Sem.Exit] 1;
                                 Sem.mk_task Sem.fine_ops 0]) <= 1.
Proof.
  assert (E : Sem.run [0; 0; 0; 1] (Sem.init 1 (map (fun j => Sem.download_file_ops (fst j) (snd j)) ex_fine_jobs))
              = Some (Sem.mk_state 0 [Sem.mk_task [Sem.Enter; Sem.Io "GET"; Sem.Exit] 0;
                                      Sem.mk_task [Sem.Io "HEAD"; Sem.Exit; Sem.Enter; Sem.Io "GET"; Sem.Exit] 1;
                                      Sem.mk_task Sem.fine_ops 0]))
    by (vm_compute; reflexivity).
  split; [exact E|].
  exact (no_retry_within_limit 1 ex_fine_jobs _ _ ltac:(repeat constructor) E).
Defined.

End ExtraWitnesses.
